(** * LLMs-Planning: the OpenRouter client helpers

    A shallow embedding of [llm_planning_analysis/utils/llm_client.py] and
    [llm_planning_analysis/utils/openrouter_client.py], and the properties
    their specification states about them.

    Python dictionaries with string keys are finite maps [gmap string _],
    the process environment [os.environ] is a [gmap string string], an
    attribute read with [getattr(x, name, None)] is an [option], and the
    [functools.lru_cache] decorator is a combinator over an explicit
    process state that holds the caches and the object allocator. *)

From Stdlib Require Import Ascii String.
From stdpp Require Import gmap strings list fin_maps.

(** ** Python primitives used by the two modules *)

Module Py.

(** Truthiness of an optional string: [None] and [""] are false. *)
Definition truthy (v : option string) : bool :=
  match v with
  | Some (String _ _) => true
  | _ => false
  end.

(** [a or b] on optional strings. *)
Definition or_else (a b : option string) : option string :=
  if truthy a then a else b.

(** [sep.join(parts)]. *)
Definition join (sep : string) (parts : list string) : string :=
  String.concat sep parts.

(** The separator ["\n\n"]. *)
Definition blank_line : string :=
  String "010"%char (String "010"%char EmptyString).

(** [d.setdefault(k, v)], as the dictionary it leaves behind. *)
Definition setdefault {V} (k : string) (v : V) (d : gmap string V)
  : gmap string V :=
  match d !! k with
  | Some _ => d
  | None => <[k := v]> d
  end.

End Py.

(** ** The OpenAI SDK objects the helpers receive and build *)

Module openai.

(** A client built by [OpenAI(api_key=..., base_url=...,
    default_headers=...)].  [object_id] is the identity of the Python
    object: two clients are the same instance when it agrees.
    [default_headers] is [None] when Python's [None] was passed. *)
Record OpenAI := {
  object_id : nat;
  api_key : string;
  base_url : string;
  default_headers : option (gmap string string)
}.

(** JSON values, as [model_dump(mode="json")] produces them; a float is
    kept as its 64-bit pattern. *)
#[warnings="-register-all"] Inductive json : Type :=
  | JNull
  | JBool (b : bool)
  | JInt (n : Z)
  | JFloat (bits : Z)
  | JStr (s : string)
  | JList (items : list json)
  | JDict (fields : gmap string json).

(** A content item of an output item: [getattr(content, "type", None)]
    and the [text] attribute when the item has one. *)
Record content_item := {
  content_type : option string;
  content_text : option string
}.

(** An output item: [getattr(item, "type", None)] and
    [getattr(item, "content", [])], [None] standing for a missing
    attribute as well as for Python's [None]. *)
Record output_item := {
  item_type : option string;
  item_content : option (list content_item)
}.

(** A Responses result, by the attributes the helpers read, and the
    dictionary its [model_dump(mode="json")] returns. *)
Record Response := {
  output_text : option string;
  output : option (list output_item);
  model_dump : gmap string json
}.

End openai.

(** ** The process: allocator and memoisation caches *)

Module process.
Import openai.

Inductive exception :=
  | RuntimeError (message : string)
  | EnvironmentError (message : string).

Inductive result (A : Type) :=
  | Returned (value : A)
  | Raised (error : exception).
Arguments Returned {A} value.
Arguments Raised {A} error.

(** [allocated] counts the [OpenAI] objects built so far, the next one
    gets it as identity; the two caches belong to the two
    [lru_cache]-decorated factories. *)
Record state := {
  allocated : nat;
  llm_client_cache : option OpenAI;
  openrouter_client_cache : option OpenAI
}.

Definition initial : state :=
  {| allocated := 0;
     llm_client_cache := None;
     openrouter_client_cache := None |}.

(** The constructor call [OpenAI(api_key=k, base_url=u,
    default_headers=h)]. *)
Definition OpenAI_new (k u : string) (h : option (gmap string string))
    (st : state) : result OpenAI * state :=
  (Returned {| object_id := allocated st;
               api_key := k; base_url := u; default_headers := h |},
   {| allocated := S (allocated st);
      llm_client_cache := llm_client_cache st;
      openrouter_client_cache := openrouter_client_cache st |}).

End process.

(** ** functools.lru_cache on a function without arguments *)

Module functools.
Import openai process.

(** The cache of one decorated function, as a slot of the process. *)
Record slot := {
  cache_get : state → option OpenAI;
  cache_put : OpenAI → state → state
}.

(** A hit returns the stored object and runs nothing; a miss runs the
    wrapped function and stores what it returns; an exception
    propagates and stores nothing. *)
Definition lru_cache (s : slot)
    (wrapped : gmap string string → state → result OpenAI * state)
    (environ : gmap string string) (st : state)
  : result OpenAI * state :=
  match cache_get s st with
  | Some client => (Returned client, st)
  | None =>
      match wrapped environ st with
      | (Returned client, st') => (Returned client, cache_put s client st')
      | (Raised e, st') => (Raised e, st')
      end
  end.

End functools.

(** ** llm_client.py *)

Module llm_client.
Import openai process functools.

(** [message.get("role", "user")] *)
Definition message_role (message : gmap string string) : string :=
  default "user" (message !! "role").

(** [message.get("content", "")] *)
Definition message_content (message : gmap string string) : string :=
  default "" (message !! "content").

(** The literal [{"role": role, "content": content}]. *)
Definition role_content (role content : string) : gmap string string :=
  <["content" := content]> (<["role" := role]> ∅).

(** One iteration of the [for message in messages] loop on the two
    accumulators [instructions_parts] and [conversation]. *)
Definition prepare_loop_body
    (acc : list string * list (gmap string string))
    (message : gmap string string)
  : list string * list (gmap string string) :=
  let role := message_role message in
  let content := message_content message in
  if decide (role = "system")
  then (acc.1 ++ [content], acc.2)
  else (acc.1, acc.2 ++ [role_content role content]).

Definition prepare_responses_messages (messages : list (gmap string string))
  : option string * list (gmap string string) :=
  let acc := fold_left prepare_loop_body messages ([], []) in
  let instructions_parts := acc.1 in
  let conversation := acc.2 in
  let instructions :=
    match instructions_parts with
    | [] => None
    | _ :: _ => Some (Py.join Py.blank_line instructions_parts)
    end in
  let conversation :=
    match conversation with
    | [] => [role_content "user" ""]
    | _ :: _ => conversation
    end in
  (instructions, conversation).

(** [_build_default_headers()], reading [os.environ]. *)
Definition _build_default_headers (environ : gmap string string)
  : option (gmap string string) :=
  let headers : gmap string string := ∅ in
  let referer := environ !! "OPENROUTER_HTTP_REFERER" in
  let headers :=
    match referer with
    | Some value =>
        if Py.truthy referer then <["HTTP-Referer" := value]> headers
        else headers
    | None => headers
    end in
  let title :=
    Py.or_else (environ !! "OPENROUTER_TITLE")
               (environ !! "OPENROUTER_X_TITLE") in
  let headers :=
    match title with
    | Some value =>
        if Py.truthy title then <["X-Title" := value]> headers
        else headers
    | None => headers
    end in
  if decide (headers = ∅) then None else Some headers.

Definition api_key_not_set : string :=
  "OPENROUTER_API_KEY is not set. Configure your OpenRouter API key "
  +:+ "in the environment before running the pipeline.".

(** The body of [get_llm_client], before decoration. *)
Definition get_llm_client__wrapped (environ : gmap string string)
    (st : state) : result OpenAI * state :=
  match environ !! "OPENROUTER_API_KEY" with
  | Some (String a k) =>
      let base_url :=
        default "https://openrouter.ai/api/v1"
                (environ !! "OPENROUTER_BASE_URL") in
      let default_headers := _build_default_headers environ in
      OpenAI_new (String a k) base_url default_headers st
  | _ => (Raised (RuntimeError api_key_not_set), st)
  end.

Definition get_llm_client_cache : slot :=
  {| cache_get := llm_client_cache;
     cache_put client st :=
       {| allocated := allocated st;
          llm_client_cache := Some client;
          openrouter_client_cache := openrouter_client_cache st |} |}.

Definition get_llm_client
  : gmap string string → state → result OpenAI * state :=
  lru_cache get_llm_client_cache get_llm_client__wrapped.

(** Body of the [for content in ...] loop of [extract_response_text]. *)
Definition extract_content (text_parts : list string)
    (content : content_item) : list string :=
  if decide (content_type content = Some "output_text")
  then text_parts ++ [default "" (content_text content)]
  else text_parts.

(** Body of the [for item in ...] loop. *)
Definition extract_item (text_parts : list string) (item : output_item)
  : list string :=
  if decide (item_type item ≠ Some "message") then text_parts
  else fold_left extract_content (default [] (item_content item))
                 text_parts.

Definition extract_response_text (response : Response) : string :=
  match output_text response with
  | Some (String a s) => String a s
  | _ =>
      let text_parts :=
        fold_left extract_item (default [] (output response)) [] in
      Py.join "" text_parts
  end.

Definition response_to_dict (response : Response) : gmap string json :=
  let response_dict := model_dump response in
  match response_dict !! "usage" with
  | Some (JDict usage) =>
      let prompt := default JNull (usage !! "input_tokens") in
      let completion := default JNull (usage !! "output_tokens") in
      let usage := Py.setdefault "prompt_tokens" prompt usage in
      let usage := Py.setdefault "completion_tokens" completion usage in
      <["usage" := JDict usage]> response_dict
  | _ => response_dict
  end.

End llm_client.

(** ** openrouter_client.py *)

Module openrouter_client.
Import openai process functools.

(** [_optional_header(name, header, headers)], as the dictionary it
    leaves in [headers]. *)
Definition _optional_header (environ : gmap string string)
    (name header : string) (headers : gmap string string)
  : gmap string string :=
  let value := environ !! name in
  match value with
  | Some v => if Py.truthy value then <[header := v]> headers else headers
  | None => headers
  end.

Definition api_key_must_be_set : string :=
  "OPENROUTER_API_KEY must be set to use the OpenRouter client.".

(** The body of [get_openrouter_client], before decoration. *)
Definition get_openrouter_client__wrapped (environ : gmap string string)
    (st : state) : result OpenAI * state :=
  match environ !! "OPENROUTER_API_KEY" with
  | Some (String a k) =>
      let base_url :=
        default "https://openrouter.ai/api/v1"
                (environ !! "OPENROUTER_BASE_URL") in
      let default_headers : gmap string string := ∅ in
      let default_headers :=
        _optional_header environ "OPENROUTER_REFERER" "HTTP-Referer"
                         default_headers in
      let default_headers :=
        _optional_header environ "OPENROUTER_APP_NAME" "X-Title"
                         default_headers in
      OpenAI_new (String a k) base_url (Some default_headers) st
  | _ => (Raised (EnvironmentError api_key_must_be_set), st)
  end.

Definition get_openrouter_client_cache : slot :=
  {| cache_get := openrouter_client_cache;
     cache_put client st :=
       {| allocated := allocated st;
          llm_client_cache := llm_client_cache st;
          openrouter_client_cache := Some client |} |}.

Definition get_openrouter_client
  : gmap string string → state → result OpenAI * state :=
  lru_cache get_openrouter_client_cache get_openrouter_client__wrapped.

End openrouter_client.

(** ** Threads calling a decorated factory

    [lru_cache] takes no lock around the wrapped function: a call looks
    the cache up, on a miss runs the wrapped function, and then stores
    the result unless the cache was filled in the meantime.  Threads
    interleave between these three steps. *)

Module threading.
Import openai process functools.

Inductive thread :=
  | Entering
  | Missed
  | Computed (r : result OpenAI)
  | Finished (r : result OpenAI).

Definition thread_step (s : slot)
    (wrapped : gmap string string → state → result OpenAI * state)
    (environ : gmap string string) (t : thread) (st : state)
  : option (thread * state) :=
  match t with
  | Entering =>
      match cache_get s st with
      | Some client => Some (Finished (Returned client), st)
      | None => Some (Missed, st)
      end
  | Missed =>
      let '(r, st') := wrapped environ st in Some (Computed r, st')
  | Computed (Returned client) =>
      match cache_get s st with
      | Some _ => Some (Finished (Returned client), st)
      | None => Some (Finished (Returned client), cache_put s client st)
      end
  | Computed (Raised e) => Some (Finished (Raised e), st)
  | Finished _ => None
  end.

Record pool := {
  threads : list thread;
  shared : state
}.

(** The scheduler lets thread [i] take its next step; a thread that has
    finished, or an index out of range, leaves the pool as it is. *)
Definition schedule_step (s : slot)
    (wrapped : gmap string string → state → result OpenAI * state)
    (environ : gmap string string) (p : pool) (i : nat) : pool :=
  match threads p !! i with
  | Some t =>
      match thread_step s wrapped environ t (shared p) with
      | Some (t', st') => {| threads := <[i := t']> (threads p); shared := st' |}
      | None => p
      end
  | None => p
  end.

Definition run (s : slot)
    (wrapped : gmap string string → state → result OpenAI * state)
    (environ : gmap string string) (schedule : list nat) (p : pool) : pool :=
  fold_left (schedule_step s wrapped environ) schedule p.

(** [n] threads about to call the factory. *)
Definition start (n : nat) (st : state) : pool :=
  {| threads := replicate n Entering; shared := st |}.

End threading.

(** ** The factories over an arbitrary SDK constructor

    [OpenAI(...)] is code of the SDK.  Here the constructor is a
    parameter that may return a client or raise, so that what the
    factories do with its outcome can be stated. *)

Module sdk.
Import openai process functools.

(** The body of [get_llm_client], calling [construct] for [OpenAI]. *)
Definition get_llm_client__wrapped
    (construct : string → string → option (gmap string string) →
                 state → result OpenAI * state)
    (environ : gmap string string) (st : state) : result OpenAI * state :=
  match environ !! "OPENROUTER_API_KEY" with
  | Some (String a k) =>
      let base_url :=
        default "https://openrouter.ai/api/v1"
                (environ !! "OPENROUTER_BASE_URL") in
      let default_headers := llm_client._build_default_headers environ in
      construct (String a k) base_url default_headers st
  | _ => (Raised (RuntimeError llm_client.api_key_not_set), st)
  end.

Definition get_llm_client
    (construct : string → string → option (gmap string string) →
                 state → result OpenAI * state)
  : gmap string string → state → result OpenAI * state :=
  lru_cache llm_client.get_llm_client_cache
            (get_llm_client__wrapped construct).

(** The body of [get_openrouter_client], calling [construct]. *)
Definition get_openrouter_client__wrapped
    (construct : string → string → option (gmap string string) →
                 state → result OpenAI * state)
    (environ : gmap string string) (st : state) : result OpenAI * state :=
  match environ !! "OPENROUTER_API_KEY" with
  | Some (String a k) =>
      let base_url :=
        default "https://openrouter.ai/api/v1"
                (environ !! "OPENROUTER_BASE_URL") in
      let default_headers : gmap string string := ∅ in
      let default_headers :=
        openrouter_client._optional_header
          environ "OPENROUTER_REFERER" "HTTP-Referer" default_headers in
      let default_headers :=
        openrouter_client._optional_header
          environ "OPENROUTER_APP_NAME" "X-Title" default_headers in
      construct (String a k) base_url (Some default_headers) st
  | _ =>
      (Raised (EnvironmentError openrouter_client.api_key_must_be_set), st)
  end.

Definition get_openrouter_client
    (construct : string → string → option (gmap string string) →
                 state → result OpenAI * state)
  : gmap string string → state → result OpenAI * state :=
  lru_cache openrouter_client.get_openrouter_client_cache
            (get_openrouter_client__wrapped construct).

End sdk.

(** ** The helpers on Python objects, with their run-time errors

    The three helpers of [llm_client.py] once more, on untyped Python
    objects: an attribute or a method that is missing, an object that
    cannot be iterated and a non-string handed to [str.join] raise, as
    they do in Python. *)

Module dynamic.

(** An object: a scalar, a string, a list, a dictionary with string
    keys, or an instance with data attributes; [dump] is what its
    [model_dump(mode="json")] returns, [None] when it has no such
    method.  A float is kept as its 64-bit pattern. *)
#[warnings="-register-all"] Inductive pyobj : Type :=
  | PNone
  | PBool (b : bool)
  | PInt (n : Z)
  | PFloat (bits : Z)
  | PStr (s : string)
  | PList (items : list pyobj)
  | PDict (entries : gmap string pyobj)
  | PObject (attributes : gmap string pyobj) (dump : option pyobj).

Inductive error := AttributeError | TypeError.

Inductive outcome (A : Type) :=
  | Ok (value : A)
  | Fails (e : error).
Arguments Ok {A} value.
Arguments Fails {A} e.

Definition bind {A B} (x : outcome A) (f : A → outcome B) : outcome B :=
  match x with
  | Ok a => f a
  | Fails e => Fails e
  end.

(** A [for] loop that updates an accumulator and stops at the first
    exception. *)
Fixpoint for_each {A B} (body : B → A → outcome B) (items : list A)
    (acc : B) : outcome B :=
  match items with
  | [] => Ok acc
  | item :: rest => bind (body acc item) (for_each body rest)
  end.

(** Truth value of an object. *)
Definition truth (o : pyobj) : bool :=
  match o with
  | PNone => false
  | PBool b => b
  | PInt n => negb (n =? 0)%Z
  | PFloat bits => negb (bits `mod` 2 ^ 63 =? 0)%Z
  | PStr s => negb (String.eqb s "")
  | PList items => match items with [] => false | _ :: _ => true end
  | PDict entries => negb (bool_decide (entries = ∅))
  | PObject _ _ => true
  end.

(** [a or b] *)
Definition or_else (a b : pyobj) : pyobj := if truth a then a else b.

(** [getattr(o, name, otherwise)], for a name that no built-in type
    has as an attribute. *)
Definition getattr (o : pyobj) (name : string) (otherwise : pyobj) : pyobj :=
  match o with
  | PObject attributes _ => default otherwise (attributes !! name)
  | _ => otherwise
  end.

(** [o == s] for a string literal [s]. *)
Definition equals_str (o : pyobj) (s : string) : bool :=
  match o with
  | PStr t => bool_decide (t = s)
  | _ => false
  end.

(** The characters of a string, as Python iterates over them. *)
Fixpoint characters (s : string) : list pyobj :=
  match s with
  | EmptyString => []
  | String a rest => PStr (String a EmptyString) :: characters rest
  end.

(** The items a [for] loop goes through: the elements of a list, the
    characters of a string, the keys of a dictionary; anything else is
    not iterable. *)
Definition iterate (o : pyobj) : outcome (list pyobj) :=
  match o with
  | PList items => Ok items
  | PStr s => Ok (characters s)
  | PDict entries => Ok (PStr <$> (map_to_list entries).*1)
  | _ => Fails TypeError
  end.

(** [o.get(key, otherwise)]: only a dictionary has the method; an
    instance with a data attribute of that name cannot be called. *)
Definition get (o : pyobj) (key : string) (otherwise : pyobj)
  : outcome pyobj :=
  match o with
  | PDict entries => Ok (default otherwise (entries !! key))
  | PObject attributes _ =>
      match attributes !! "get" with
      | Some _ => Fails TypeError
      | None => Fails AttributeError
      end
  | _ => Fails AttributeError
  end.

(** The strings of [parts], when they are all strings. *)
Fixpoint strings_of (parts : list pyobj) : outcome (list string) :=
  match parts with
  | [] => Ok []
  | PStr s :: rest => bind (strings_of rest) (λ l, Ok (s :: l))
  | _ :: _ => Fails TypeError
  end.

(** [sep.join(parts)] *)
Definition join (sep : string) (parts : list pyobj) : outcome string :=
  bind (strings_of parts) (λ l, Ok (String.concat sep l)).

(** The literal [{"role": role, "content": content}]. *)
Definition role_content (role content : pyobj) : pyobj :=
  PDict (<["content" := content]> (<["role" := role]> ∅)).

Definition prepare_loop_body (acc : list pyobj * list pyobj)
    (message : pyobj) : outcome (list pyobj * list pyobj) :=
  bind (get message "role" (PStr "user")) (λ role,
  bind (get message "content" (PStr "")) (λ content,
  if equals_str role "system"
  then Ok (acc.1 ++ [content], acc.2)
  else Ok (acc.1, acc.2 ++ [role_content role content]))).

Definition prepare_responses_messages (messages : pyobj)
  : outcome (pyobj * pyobj) :=
  bind (iterate messages) (λ items,
  bind (for_each prepare_loop_body items ([], [])) (λ acc,
  let instructions_parts := acc.1 in
  let conversation := acc.2 in
  bind (match instructions_parts with
        | [] => Ok PNone
        | _ :: _ =>
            bind (join (String "010"%char (String "010"%char EmptyString))
                       instructions_parts)
                 (λ s, Ok (PStr s))
        end) (λ instructions,
  let conversation :=
    match conversation with
    | [] => [role_content (PStr "user") (PStr "")]
    | _ :: _ => conversation
    end in
  Ok (instructions, PList conversation)))).

Definition extract_content (text_parts : list pyobj) (content : pyobj)
  : outcome (list pyobj) :=
  if equals_str (getattr content "type" PNone) "output_text"
  then Ok (text_parts ++ [getattr content "text" (PStr "")])
  else Ok text_parts.

Definition extract_item (text_parts : list pyobj) (item : pyobj)
  : outcome (list pyobj) :=
  if negb (equals_str (getattr item "type" PNone) "message")
  then Ok text_parts
  else
    bind (iterate (or_else (getattr item "content" (PList [])) (PList [])))
         (λ contents, for_each extract_content contents text_parts).

Definition extract_response_text (response : pyobj) : outcome pyobj :=
  let output_text := getattr response "output_text" PNone in
  if truth output_text then Ok output_text
  else
    bind (iterate (or_else (getattr response "output" (PList [])) (PList [])))
         (λ items,
    bind (for_each extract_item items []) (λ text_parts,
    bind (join "" text_parts) (λ s, Ok (PStr s)))).

Definition response_to_dict (response : pyobj) : outcome pyobj :=
  match response with
  | PObject _ (Some response_dict) =>
      bind (get response_dict "usage" PNone) (λ usage,
      match usage, response_dict with
      | PDict usage, PDict fields =>
          let prompt := default PNone (usage !! "input_tokens") in
          let completion := default PNone (usage !! "output_tokens") in
          let usage := Py.setdefault "prompt_tokens" prompt usage in
          let usage := Py.setdefault "completion_tokens" completion usage in
          Ok (PDict (<["usage" := PDict usage]> fields))
      | _, _ => Ok response_dict
      end)
  | _ => Fails AttributeError
  end.

End dynamic.

(** * Vocabulary of the specification *)

Import openai process functools threading llm_client openrouter_client.

(** ** The message adapter *)

(** A message is a role/content mapping when it has exactly these keys. *)
Definition role_content_mapping (message : gmap string string) : Prop :=
  dom message = ({["role"; "content"]} : gset string).

Definition is_system (message : gmap string string) : Prop :=
  message_role message = "system".

#[global] Instance is_system_dec message : Decision (is_system message).
Proof. unfold is_system. apply _. Defined.

(** Contents of the system messages, in input order. *)
Definition system_contents (messages : list (gmap string string))
  : list string :=
  message_content <$> filter is_system messages.

(** The messages of any other role, in input order. *)
Definition non_system (messages : list (gmap string string))
  : list (gmap string string) :=
  filter (λ m, ¬ is_system m) messages.

(** What the loop appends to the conversation for a message. *)
Definition rebuilt (message : gmap string string) : gmap string string :=
  role_content (message_role message) (message_content message).

Definition placeholder : gmap string string := role_content "user" "".

(** The three messages of the specification's example. *)
Definition system_A : gmap string string := role_content "system" "A".
Definition system_B : gmap string string := role_content "system" "B".
Definition user_Q : gmap string string := role_content "user" "Q".

(** ** Text extraction *)

(** The texts [extract_response_text] collects from one output item. *)
Definition item_texts (item : output_item) : list string :=
  if decide (item_type item = Some "message")
  then content ← default [] (item_content item);
       if decide (content_type content = Some "output_text")
       then [default "" (content_text content)] else []
  else [].

(** The text of every content item tagged "output_text" inside every
    output item tagged "message", in encounter order. *)
Definition output_texts (response : Response) : list string :=
  default [] (output response) ≫= item_texts.

(** A response whose [output_text] is the empty string while its output
    holds one message with the text "hi". *)
Definition empty_output_text_response : Response :=
  {| output_text := Some "";
     output := Some [ {| item_type := Some "message";
                         item_content :=
                           Some [ {| content_type := Some "output_text";
                                     content_text := Some "hi" |} ] |} ];
     model_dump := ∅ |}.

(** The same output, without the [output_text] attribute. *)
Definition nested_only_response : Response :=
  {| output_text := None;
     output := output empty_output_text_response;
     model_dump := ∅ |}.

(** ** Usage statistics *)

(** The usage mapping of the specification's example, before and after. *)
Definition usage_3_5 : gmap string json :=
  <["input_tokens" := JInt 3]> (<["output_tokens" := JInt 5]> ∅).

Definition usage_3_5_normalised : gmap string json :=
  <["prompt_tokens" := JInt 3]>
    (<["completion_tokens" := JInt 5]> usage_3_5).

Definition response_with_usage (usage : json) : Response :=
  {| output_text := None; output := None;
     model_dump := <["id" := JStr "resp_1"]> (<["usage" := usage]> ∅) |}.

(** ** The client factories *)

(** Successive calls of a factory, each under the environment of its
    time: the results in call order and the final process state. *)
Fixpoint calls
    (factory : gmap string string → state → result OpenAI * state)
    (environs : list (gmap string string)) (st : state)
  : list (result OpenAI) * state :=
  match environs with
  | [] => ([], st)
  | environ :: later =>
      let '(r, st') := factory environ st in
      let '(rs, st'') := calls factory later st' in
      (r :: rs, st'')
  end.

(** A header of the mapping handed to the client, if any. *)
Definition header (headers : option (gmap string string)) (name : string)
  : option string :=
  headers ≫= λ h, h !! name.

(** The value of a variable that is set to a non-empty string. *)
Definition nonempty_value (v : option string) : option string :=
  if Py.truthy v then v else None.

(** Environments used as examples. *)
Definition environ_key_only : gmap string string :=
  {[ "OPENROUTER_API_KEY" := "sk-or-v1" ]}.

Definition environ_empty_key : gmap string string :=
  {[ "OPENROUTER_API_KEY" := "" ]}.

Definition environ_empty_referer : gmap string string :=
  <["OPENROUTER_HTTP_REFERER" := ""]> environ_key_only.

Definition environ_both_titles : gmap string string :=
  <["OPENROUTER_TITLE" := "planner"]>
    (<["OPENROUTER_X_TITLE" := "old-planner"]> environ_key_only).

Definition environ_x_title_only : gmap string string :=
  <["OPENROUTER_TITLE" := ""]>
    (<["OPENROUTER_X_TITLE" := "old-planner"]> environ_key_only).

Definition environ_openrouter_headers : gmap string string :=
  <["OPENROUTER_REFERER" := "https://example.org"]>
    (<["OPENROUTER_APP_NAME" := "planner"]> environ_key_only).

(** The client [get_openrouter_client] constructs first under
    [environ_openrouter_headers]. *)
Definition planner_client : OpenAI :=
  {| object_id := 0;
     api_key := "sk-or-v1";
     base_url := "https://openrouter.ai/api/v1";
     default_headers :=
       Some (<["HTTP-Referer" := "https://example.org"]>
               (<["X-Title" := "planner"]> ∅)) |}.

(** A call of either factory, under the environment of its time. *)
Inductive factory_call :=
  | call_get_llm_client (environ : gmap string string)
  | call_get_openrouter_client (environ : gmap string string).

Definition perform (c : factory_call) (st : state) : result OpenAI * state :=
  match c with
  | call_get_llm_client environ => get_llm_client environ st
  | call_get_openrouter_client environ => get_openrouter_client environ st
  end.

(** The process state after a sequence of calls of the two factories. *)
Definition perform_all (cs : list factory_call) (st : state) : state :=
  fold_left (λ st c, (perform c st).2) cs st.

(** What the generic facts about [lru_cache] ask of a factory. *)
Definition well_behaved (s : slot)
    (wrapped : gmap string string → state → result OpenAI * state) : Prop :=
  (∀ client st, cache_get s (cache_put s client st) = Some client)
  ∧ (∀ client st, allocated (cache_put s client st) = allocated st)
  ∧ (∀ environ st r st', wrapped environ st = (r, st') →
                         cache_get s st' = cache_get s st)
  ∧ (∀ environ st r st', wrapped environ st = (r, st') →
                         allocated st' ≤ S (allocated st))
  ∧ (∀ environ st e st', wrapped environ st = (Raised e, st') → st' = st).

(** ** Threads *)

(** How many clients a thread may still construct: one if it has missed
    the cache, or is about to look up a cache that is empty. *)
Definition may_construct (cache : option OpenAI) (t : thread) : nat :=
  match t, cache with
  | Entering, None => 1
  | Missed, _ => 1
  | _, _ => 0
  end.

Definition budget (s : slot) (p : pool) : nat :=
  allocated (shared p)
  + sum_list (may_construct (cache_get s (shared p)) <$> threads p).

(** Threads calling [get_llm_client], and [get_openrouter_client]. *)
Definition llm_client_threads
  : gmap string string → list nat → pool → pool :=
  run get_llm_client_cache get_llm_client__wrapped.

Definition openrouter_client_threads
  : gmap string string → list nat → pool → pool :=
  run get_openrouter_client_cache get_openrouter_client__wrapped.

(** The identities of the clients the threads have got back. *)
Definition returned_objects (p : pool) : list nat :=
  omap (λ t, match t with
             | Finished (Returned client) => Some (object_id client)
             | _ => None
             end) (threads p).

(** Two threads in lockstep: both look the cache up, both run the
    wrapped function, both store. *)
Definition lockstep : list nat := [0; 1; 0; 1; 0; 1].

(** The client a first call of [get_llm_client] constructs under
    [environ_key_only], and the process state it leaves. *)
Definition first_client : OpenAI :=
  {| object_id := 0;
     api_key := "sk-or-v1";
     base_url := "https://openrouter.ai/api/v1";
     default_headers := None |}.

Definition after_first_call : state :=
  (get_llm_client environ_key_only initial).2.

(** ** Further vocabulary: messages as arbitrary dictionaries *)

(** An entry of a conversation the adapter returns: exactly the keys
    "role" and "content", and a role other than "system". *)
Definition conversation_entry (message : gmap string string) : Prop :=
  role_content_mapping message ∧ ¬ is_system message.



(** ** Further vocabulary: output items *)

(** The output items with everything [extract_response_text] skips
    removed: only items tagged "message" stay, and of their content only
    the items tagged "output_text". *)
Definition only_output_text (items : list output_item) : list output_item :=
  (λ item,
     {| item_type := item_type item;
        item_content :=
          Some (filter (λ content, content_type content = Some "output_text")
                       (default [] (item_content item))) |})
  <$> filter (λ item, item_type item = Some "message") items.

(** An output with a reasoning item, a message holding a refusal and
    two texts, and a second message. *)
Definition mixed_output : list output_item :=
  [ {| item_type := Some "reasoning";
       item_content :=
         Some [ {| content_type := Some "output_text";
                   content_text := Some "thinking" |} ] |};
    {| item_type := Some "message";
       item_content :=
         Some [ {| content_type := Some "output_text";
                   content_text := Some "a" |};
                {| content_type := Some "refusal";
                   content_text := Some "no" |};
                {| content_type := Some "output_text";
                   content_text := None |};
                {| content_type := Some "output_text";
                   content_text := Some "b" |} ] |};
    {| item_type := None; item_content := None |};
    {| item_type := Some "message"; item_content := None |};
    {| item_type := Some "message";
       item_content :=
         Some [ {| content_type := Some "output_text";
                   content_text := Some "c" |} ] |} ].

Definition response_of_output (items : list output_item) : Response :=
  {| output_text := None; output := Some items; model_dump := ∅ |}.

(** ** Further vocabulary: serialised responses *)

(** The response whose serialisation is [dump]. *)
Definition response_of_dump (dump : gmap string json) : Response :=
  {| output_text := None; output := None; model_dump := dump |}.

(** What [response_to_dict] does to a usage mapping. *)
Definition normalise_usage (usage : gmap string json) : gmap string json :=
  Py.setdefault "completion_tokens" (default JNull (usage !! "output_tokens"))
    (Py.setdefault "prompt_tokens" (default JNull (usage !! "input_tokens"))
       usage).

(** ** Further vocabulary: the factories *)

(** The environment variables each factory reads. *)
Definition llm_client_variables : list string :=
  [ "OPENROUTER_API_KEY"; "OPENROUTER_BASE_URL"; "OPENROUTER_HTTP_REFERER";
    "OPENROUTER_TITLE"; "OPENROUTER_X_TITLE" ].

Definition openrouter_client_variables : list string :=
  [ "OPENROUTER_API_KEY"; "OPENROUTER_BASE_URL"; "OPENROUTER_REFERER";
    "OPENROUTER_APP_NAME" ].

(** Two environments agree on the variables [names]. *)
Definition agree_on (names : list string)
    (environ1 environ2 : gmap string string) : Prop :=
  Forall (λ name, environ1 !! name = environ2 !! name) names.

(** How many clients the process may still construct: one per factory
    whose cache is empty. *)
Definition unfilled (st : state) : nat :=
  match llm_client_cache st with Some _ => 0 | None => 1 end
  + match openrouter_client_cache st with Some _ => 0 | None => 1 end.

(** A base URL set to the empty string. *)
Definition environ_empty_base_url : gmap string string :=
  <["OPENROUTER_BASE_URL" := ""]> environ_key_only.

(** An environment that also sets the header variables of the other
    factory and one variable neither reads. *)
Definition environ_foreign_variables : gmap string string :=
  <["OPENROUTER_REFERER" := "https://example.org"]>
    (<["OPENROUTER_APP_NAME" := "planner"]>
       (<["OPENAI_API_KEY" := "test-key"]> environ_key_only)).

(** ** Further vocabulary: threads that race *)

(** The threads that have found the cache empty and have not yet run the
    wrapped function. *)
Definition is_missed (t : thread) : nat :=
  match t with Missed => 1 | _ => 0 end.

Definition missed (p : pool) : nat := sum_list (is_missed <$> threads p).

(** Thread [i] has got [client] back from the wrapped function. *)
Definition holds (p : pool) (i : nat) (client : OpenAI) : Prop :=
  threads p !! i = Some (Computed (Returned client))
  ∨ threads p !! i = Some (Finished (Returned client)).

(** Every thread of the pool has missed the cache, the process had
    allocated [base] objects then: each thread either still has to run
    the wrapped function or holds a client allocated since, no two hold
    the same object, and every thread that is past the wrapped function
    accounts for one allocation. *)
Definition racing (base : nat) (p : pool) : Prop :=
  (∀ i t, threads p !! i = Some t →
          t = Missed
          ∨ ∃ client,
              (t = Computed (Returned client) ∨ t = Finished (Returned client))
              ∧ base ≤ object_id client < allocated (shared p))
  ∧ (∀ i j ci cj, i ≠ j → holds p i ci → holds p j cj →
                  object_id ci ≠ object_id cj)
  ∧ allocated (shared p) + missed p = base + length (threads p).

(** The wrapped function constructs under [environ]: it returns a new
    object, whatever the process state. *)
Definition constructs
    (wrapped : gmap string string → state → result OpenAI * state)
    (environ : gmap string string) : Prop :=
  ∀ st, ∃ client st',
    wrapped environ st = (Returned client, st')
    ∧ object_id client = allocated st
    ∧ allocated st' = S (allocated st).

(** ** Further vocabulary: inputs of the declared types, as objects *)

(** A [Dict[str, str]] message as an object. *)
Definition of_message (message : gmap string string) : dynamic.pyobj :=
  dynamic.PDict (dynamic.PStr <$> message).

(** An [Optional[str]] as an object. *)
Definition of_optional (o : option string) : dynamic.pyobj :=
  from_option dynamic.PStr dynamic.PNone o.

(** A JSON value as an object. *)
Fixpoint of_json (j : json) : dynamic.pyobj :=
  match j with
  | JNull => dynamic.PNone
  | JBool b => dynamic.PBool b
  | JInt n => dynamic.PInt n
  | JFloat bits => dynamic.PFloat bits
  | JStr s => dynamic.PStr s
  | JList items => dynamic.PList (of_json <$> items)
  | JDict fields => dynamic.PDict (of_json <$> fields)
  end.

(** The string an attribute holds, if it is there and is a string. *)
Definition as_str (o : option dynamic.pyobj) : option string :=
  match o with
  | Some (dynamic.PStr s) => Some s
  | _ => None
  end.

(** The attributes of an object. *)
Definition attributes_of (o : dynamic.pyobj) : gmap string dynamic.pyobj :=
  match o with
  | dynamic.PObject attributes _ => attributes
  | _ => ∅
  end.

(** What the typed helpers read of a content item, an output item and a
    response given as objects. *)
Definition to_content (o : dynamic.pyobj) : content_item :=
  {| content_type := as_str (attributes_of o !! "type");
     content_text := as_str (attributes_of o !! "text") |}.

Definition to_item (o : dynamic.pyobj) : output_item :=
  {| item_type := as_str (attributes_of o !! "type");
     item_content :=
       match attributes_of o !! "content" with
       | Some (dynamic.PList contents) => Some (to_content <$> contents)
       | _ => None
       end |}.

Definition to_response (o : dynamic.pyobj) : Response :=
  {| output_text := as_str (attributes_of o !! "output_text");
     output :=
       match attributes_of o !! "output" with
       | Some (dynamic.PList items) => Some (to_item <$> items)
       | _ => None
       end;
     model_dump := ∅ |}.

(** An attribute of type [Optional[T]]: missing, [None], or a [T]. *)
Definition optional (is_T : dynamic.pyobj → Prop)
    (o : option dynamic.pyobj) : Prop :=
  match o with
  | None | Some dynamic.PNone => True
  | Some v => is_T v
  end.

Definition is_str (o : dynamic.pyobj) : Prop := ∃ s, o = dynamic.PStr s.

Definition is_list_of (is_T : dynamic.pyobj → Prop) (o : dynamic.pyobj)
  : Prop :=
  ∃ items, o = dynamic.PList items ∧ Forall is_T items.

(** A content item: an instance whose [text], when it has one, is a
    string. *)
Definition typed_content (o : dynamic.pyobj) : Prop :=
  (∃ attributes dump, o = dynamic.PObject attributes dump)
  ∧ match attributes_of o !! "text" with
    | None => True
    | Some v => is_str v
    end.

(** An output item: an instance whose [content], when it has one, is
    [None] or a list of content items. *)
Definition typed_item (o : dynamic.pyobj) : Prop :=
  (∃ attributes dump, o = dynamic.PObject attributes dump)
  ∧ optional (is_list_of typed_content) (attributes_of o !! "content").

(** A response: an instance whose [output_text], when it has one, is
    [None] or a string, and whose [output] is [None] or a list of output
    items. *)
Definition typed_response (o : dynamic.pyobj) : Prop :=
  (∃ attributes dump, o = dynamic.PObject attributes dump)
  ∧ optional is_str (attributes_of o !! "output_text")
  ∧ optional (is_list_of typed_item) (attributes_of o !! "output").

(** A response whose only message holds a text that is [None]. *)
Definition response_with_none_text : dynamic.pyobj :=
  dynamic.PObject
    {[ "output" :=
         dynamic.PList
           [ dynamic.PObject
               (<["type" := dynamic.PStr "message"]>
                  {[ "content" :=
                       dynamic.PList
                         [ dynamic.PObject
                             (<["type" := dynamic.PStr "output_text"]>
                                {[ "text" := dynamic.PNone ]})
                             None ] ]})
               None ] ]}
    None.

(** An SDK constructor that refuses every call. *)
Definition refusing_constructor (k u : string)
    (h : option (gmap string string)) (st : state) : result OpenAI * state :=
  (Raised (RuntimeError "refused"), st).

(** * Properties *)

(** ** Facts about the message adapter *)

Section message_adapter_facts.

Lemma prepare_loop_acc messages parts conv :
  fold_left prepare_loop_body messages (parts, conv)
  = (parts ++ system_contents messages,
     conv ++ (rebuilt <$> non_system messages)).
Proof.
  revert parts conv.
  induction messages as [|m ms IH]; intros parts conv; simpl.
  - by rewrite !app_nil_r.
  - unfold system_contents, non_system in *.
    rewrite !filter_cons. unfold prepare_loop_body at 2. simpl.
    fold (is_system m).
    destruct (decide (is_system m)) as [Hs|Hs].
    + rewrite decide_False by tauto. rewrite IH. simpl.
      by rewrite <- app_assoc.
    + rewrite decide_True by done. rewrite IH. simpl.
      by rewrite <- app_assoc.
Qed.

Lemma rebuilt_role_content_mapping message :
  role_content_mapping message → rebuilt message = message.
Proof.
  unfold role_content_mapping. intros Hdom.
  assert (is_Some (message !! "role")) as [r Hr].
  { apply elem_of_dom. rewrite Hdom. set_solver. }
  assert (is_Some (message !! "content")) as [c Hc].
  { apply elem_of_dom. rewrite Hdom. set_solver. }
  unfold rebuilt, role_content, message_role, message_content.
  rewrite Hr, Hc. simpl. apply map_eq. intros k.
  destruct (decide (k = "content")) as [->|Hk1];
    [by rewrite lookup_insert_eq|].
  rewrite lookup_insert_ne by done.
  destruct (decide (k = "role")) as [->|Hk2];
    [by rewrite lookup_insert_eq|].
  rewrite lookup_insert_ne by done. rewrite lookup_empty.
  symmetry. apply not_elem_of_dom. rewrite Hdom.
  rewrite elem_of_union, !elem_of_singleton. tauto.
Qed.

Lemma rebuilt_all messages :
  Forall role_content_mapping messages →
  rebuilt <$> non_system messages = non_system messages.
Proof.
  intros Hall. unfold non_system.
  induction Hall as [|m ms Hm _ IH]; [done|].
  rewrite filter_cons. destruct (decide (¬ is_system m)); [|done].
  rewrite fmap_cons, IH. by rewrite rebuilt_role_content_mapping.
Qed.

Lemma prepare_responses_messages_eq messages :
  prepare_responses_messages messages
  = (match system_contents messages with
     | [] => None
     | _ :: _ => Some (Py.join Py.blank_line (system_contents messages))
     end,
     match rebuilt <$> non_system messages with
     | [] => [placeholder]
     | _ :: _ => rebuilt <$> non_system messages
     end).
Proof.
  unfold prepare_responses_messages. by rewrite prepare_loop_acc.
Qed.

End message_adapter_facts.

(** ** The message adapter: instructions and conversation *)

Section prepare_responses_messages_spec.

(** C1. For a list of role/content mappings, the instructions are the
    contents of the system messages joined, in input order, by a blank
    line, and absent when there is no system message; the conversation
    holds the other messages, unchanged and in their input order (it is
    exactly that list whenever it is not empty); on the example system A,
    system B, user Q the result is ("A\n\nB", [user Q]).  The separator
    is written out: the character "010" is the line feed, code 10. *)
Theorem prepare_splits_instructions_and_conversation
    (messages : list (gmap string string)) :
  Forall role_content_mapping messages →
  (prepare_responses_messages messages).1
  = (if decide (system_contents messages = []) then None
     else Some (String.concat (String "010"%char (String "010"%char ""))
                              (system_contents messages)))
  ∧ (prepare_responses_messages messages).2
    = (if decide (non_system messages = []) then [placeholder]
       else non_system messages)
  ∧ non_system messages `sublist_of` (prepare_responses_messages messages).2
  ∧ prepare_responses_messages [system_A; system_B; user_Q]
    = (Some (String "A" (String "010"%char (String "010"%char "B"))),
       [user_Q]).
Proof.
  intros Hall. rewrite prepare_responses_messages_eq. simpl.
  rewrite (rebuilt_all _ Hall).
  split_and!.
  - by destruct (system_contents messages).
  - by destruct (non_system messages).
  - destruct (non_system messages); [apply sublist_nil_l | done].
  - by vm_compute.
Qed.

Lemma prepare_splits_instructions_and_conversation_witness :
  (prepare_responses_messages [system_A; user_Q; system_B]).1
  = Some (String "A" (String "010"%char (String "010"%char "B")))
  ∧ (prepare_responses_messages [system_A; user_Q; system_B]).2 = [user_Q].
Proof.
  assert (Forall role_content_mapping [system_A; user_Q; system_B]) as Hall.
  { repeat constructor; vm_compute; reflexivity. }
  destruct (prepare_splits_instructions_and_conversation _ Hall)
    as (H1 & H2 & _ & _).
  split; [exact H1 | exact H2].
Defined.



End prepare_responses_messages_spec.

(** ** Text extraction *)

Section extract_response_text_spec.

Lemma extract_content_acc contents parts :
  fold_left extract_content contents parts
  = parts ++ (contents ≫= λ content,
                if decide (content_type content = Some "output_text")
                then [default "" (content_text content)] else []).
Proof.
  revert parts. induction contents as [|c cs IH]; intros parts; simpl.
  - by rewrite app_nil_r.
  - rewrite IH. unfold extract_content.
    destruct (decide (content_type c = Some "output_text")); simpl.
    + by rewrite <- app_assoc.
    + done.
Qed.

Lemma extract_item_acc items parts :
  fold_left extract_item items parts = parts ++ (items ≫= item_texts).
Proof.
  revert parts. induction items as [|item items IH]; intros parts; simpl.
  - by rewrite app_nil_r.
  - rewrite IH. unfold extract_item, item_texts.
    destruct (decide (item_type item = Some "message")).
    + rewrite decide_False by tauto.
      rewrite extract_content_acc. by rewrite <- app_assoc.
    + by rewrite decide_True by done.
Qed.

Lemma extract_response_text_scan response :
  Py.truthy (output_text response) = false →
  extract_response_text response = Py.join "" (output_texts response).
Proof.
  unfold extract_response_text, output_texts. intros Hfalse.
  destruct (output_text response) as [[|a s]|]; try done;
    by rewrite extract_item_acc.
Qed.

(** C3, as amended.  A non-empty [output_text] is returned verbatim.
    When [output_text] is missing, [None] or the empty string, the result
    is the concatenation, in encounter order, of the text of every
    content item tagged "output_text" inside every output item tagged
    "message", and the empty string when there is no such content; on a
    response with only one message holding the text "hi" it is "hi". *)
Theorem extract_response_text_nonempty_or_scan (response : Response) :
  (∀ text, output_text response = Some text → text ≠ "" →
           extract_response_text response = text)
  ∧ (output_text response = None ∨ output_text response = Some "" →
     extract_response_text response = Py.join "" (output_texts response))
  ∧ (output_text response = None ∨ output_text response = Some "" →
     output_texts response = [] → extract_response_text response = "")
  ∧ extract_response_text nested_only_response = "hi".
Proof.
  split_and!.
  - intros text Htext Hne. unfold extract_response_text. rewrite Htext.
    by destruct text.
  - intros [H|H]; apply extract_response_text_scan; by rewrite H.
  - intros H Hnil. rewrite extract_response_text_scan, Hnil; [done|].
    by destruct H as [-> | ->].
  - reflexivity.
Qed.

Lemma extract_response_text_nonempty_or_scan_witness :
  extract_response_text
    {| output_text := Some "done"; output := output nested_only_response;
       model_dump := ∅ |} = "done"
  ∧ extract_response_text empty_output_text_response = "hi"
  ∧ extract_response_text
      {| output_text := None; output := None; model_dump := ∅ |} = "".
Proof.
  split_and!.
  - by apply (extract_response_text_nonempty_or_scan
                {| output_text := Some "done";
                   output := output nested_only_response;
                   model_dump := ∅ |}).
  - destruct (extract_response_text_nonempty_or_scan
                empty_output_text_response) as (_ & H & _).
    rewrite H; [reflexivity | by right].
  - destruct (extract_response_text_nonempty_or_scan
                {| output_text := None; output := None; model_dump := ∅ |})
      as (_ & _ & H & _).
    apply H; [by left | reflexivity].
Defined.

(** C3 as stated fails: a response can expose the empty [output_text]
    and still carry message text, which is what comes back. *)
Lemma extract_response_text_not_verbatim :
  ¬ (∀ response text, output_text response = Some text →
                      extract_response_text response = text).
Proof.
  intros Hclaim.
  specialize (Hclaim empty_output_text_response "" eq_refl).
  vm_compute in Hclaim. discriminate Hclaim.
Qed.

End extract_response_text_spec.

(** ** Usage statistics *)

Section response_to_dict_spec.

Lemma setdefault_lookup {V} (k k' : string) (v : V) (d : gmap string V) :
  Py.setdefault k v d !! k'
  = if decide (k = k') then Some (default v (d !! k)) else d !! k'.
Proof.
  unfold Py.setdefault. destruct (d !! k) as [w|] eqn:Hk.
  - case_decide; by subst.
  - rewrite lookup_insert. by case_decide.
Qed.

(** C4. When the serialised response has a "usage" mapping, the result
    has one too, in which prompt_tokens and completion_tokens are
    present: a value already there is kept, a missing one is taken from
    input_tokens, respectively output_tokens (Python's [None] if that is
    missing too); every other usage field and every other field of the
    response is as it was.  Usage {input_tokens: 3, output_tokens: 5}
    gains prompt_tokens = 3 and completion_tokens = 5. *)
Theorem response_to_dict_normalises_usage
    (response : Response) (usage : gmap string json) :
  model_dump response !! "usage" = Some (JDict usage) →
  ∃ usage' : gmap string json,
    response_to_dict response !! "usage" = Some (JDict usage')
    ∧ is_Some (usage' !! "prompt_tokens")
    ∧ is_Some (usage' !! "completion_tokens")
    ∧ (∀ v, usage !! "prompt_tokens" = Some v →
            usage' !! "prompt_tokens" = Some v)
    ∧ (∀ v, usage !! "completion_tokens" = Some v →
            usage' !! "completion_tokens" = Some v)
    ∧ (usage !! "prompt_tokens" = None →
       usage' !! "prompt_tokens"
       = Some (default JNull (usage !! "input_tokens")))
    ∧ (usage !! "completion_tokens" = None →
       usage' !! "completion_tokens"
       = Some (default JNull (usage !! "output_tokens")))
    ∧ (∀ k, k ≠ "prompt_tokens" → k ≠ "completion_tokens" →
            usage' !! k = usage !! k)
    ∧ (∀ k, k ≠ "usage" →
            response_to_dict response !! k = model_dump response !! k)
    ∧ response_to_dict (response_with_usage (JDict usage_3_5)) !! "usage"
      = Some (JDict usage_3_5_normalised).
Proof.
  intros Husage. unfold response_to_dict. rewrite Husage.
  eexists. split; [apply lookup_insert_eq|].
  split_and!; rewrite ?setdefault_lookup; simpl.
  - eauto.
  - eauto.
  - intros v Hv. by rewrite Hv.
  - intros v Hv. by rewrite Hv.
  - intros Hv. by rewrite Hv.
  - intros Hv. by rewrite Hv.
  - intros k H1 H2. rewrite !setdefault_lookup.
    by rewrite !decide_False by done.
  - intros k Hk. by rewrite lookup_insert_ne.
  - by vm_compute.
Qed.

Lemma response_to_dict_normalises_usage_witness :
  ∃ usage' : gmap string json,
    response_to_dict (response_with_usage (JDict usage_3_5)) !! "usage"
    = Some (JDict usage')
    ∧ usage' !! "prompt_tokens" = Some (JInt 3)
    ∧ usage' !! "completion_tokens" = Some (JInt 5)
    ∧ usage' !! "input_tokens" = Some (JInt 3)
    ∧ usage' !! "output_tokens" = Some (JInt 5).
Proof.
  destruct (response_to_dict_normalises_usage
              (response_with_usage (JDict usage_3_5)) usage_3_5 eq_refl)
    as (usage' & Hu & _ & _ & _ & _ & Hp & Hc & Hother & _).
  exists usage'. split; [exact Hu|].
  split; [apply Hp; reflexivity|].
  split; [apply Hc; reflexivity|].
  split; rewrite Hother; done.
Defined.

End response_to_dict_spec.

(** ** The memoised factories, sequentially *)

Section lru_cache_facts.
Variable s : slot.
Variable wrapped : gmap string string → state → result OpenAI * state.

Hypothesis get_put : ∀ client st, cache_get s (cache_put s client st) = Some client.
Hypothesis put_allocated :
  ∀ client st, allocated (cache_put s client st) = allocated st.
Hypothesis wrapped_cache :
  ∀ environ st r st', wrapped environ st = (r, st') →
                      cache_get s st' = cache_get s st.
Hypothesis wrapped_allocated :
  ∀ environ st r st', wrapped environ st = (r, st') →
                      allocated st' ≤ S (allocated st).
Hypothesis wrapped_raised :
  ∀ environ st e st', wrapped environ st = (Raised e, st') → st' = st.

Lemma lru_cache_hit environ st client :
  cache_get s st = Some client →
  lru_cache s wrapped environ st = (Returned client, st).
Proof. intros Hc. unfold lru_cache. by rewrite Hc. Qed.

Lemma lru_cache_returned environ st client st' :
  lru_cache s wrapped environ st = (Returned client, st') →
  cache_get s st' = Some client.
Proof.
  unfold lru_cache. destruct (cache_get s st) as [c|] eqn:Hc.
  - intros [= <- <-]. done.
  - destruct (wrapped environ st) as [[c|e] st1]; intros [= <- <-].
    apply get_put.
Qed.

Lemma lru_cache_raised environ st e st' :
  lru_cache s wrapped environ st = (Raised e, st') →
  cache_get s st = None ∧ wrapped environ st = (Raised e, st) ∧ st' = st.
Proof.
  unfold lru_cache. destruct (cache_get s st) as [c|] eqn:Hc; [done|].
  destruct (wrapped environ st) as [[c|e'] st1] eqn:Hw; intros [= <- <-].
  by rewrite (wrapped_raised _ _ _ _ Hw).
Qed.

Lemma calls_cached environs st client :
  cache_get s st = Some client →
  calls (lru_cache s wrapped) environs st
  = (replicate (length environs) (Returned client), st).
Proof.
  intros Hc. induction environs as [|environ later IH]; simpl; [done|].
  by rewrite (lru_cache_hit _ _ _ Hc), IH.
Qed.

Lemma calls_allocate_once environs st :
  allocated (calls (lru_cache s wrapped) environs st).2 ≤ S (allocated st).
Proof.
  induction environs as [|environ later IH]; simpl; [lia|].
  destruct (lru_cache s wrapped environ st) as [[c|e] st1] eqn:Hcall.
  - pose proof (lru_cache_returned _ _ _ _ Hcall) as Hc.
    rewrite (calls_cached later _ _ Hc). simpl.
    revert Hcall. unfold lru_cache.
    destruct (cache_get s st); [intros [= _ <-]; lia|].
    destruct (wrapped environ st) as [[c'|e'] st2] eqn:Hw; intros [= _ <-].
    rewrite put_allocated. eauto.
  - apply lru_cache_raised in Hcall as (_ & _ & ->).
    destruct (calls (lru_cache s wrapped) later st). done.
Qed.

End lru_cache_facts.

Section factories.

Lemma get_llm_client__wrapped_eq environ st :
  get_llm_client__wrapped environ st
  = if Py.truthy (environ !! "OPENROUTER_API_KEY")
    then OpenAI_new (default "" (environ !! "OPENROUTER_API_KEY"))
           (default "https://openrouter.ai/api/v1"
                    (environ !! "OPENROUTER_BASE_URL"))
           (_build_default_headers environ) st
    else (Raised (RuntimeError api_key_not_set), st).
Proof.
  unfold get_llm_client__wrapped.
  by destruct (environ !! "OPENROUTER_API_KEY") as [[|a k]|].
Qed.

Lemma get_openrouter_client__wrapped_eq environ st :
  get_openrouter_client__wrapped environ st
  = if Py.truthy (environ !! "OPENROUTER_API_KEY")
    then OpenAI_new (default "" (environ !! "OPENROUTER_API_KEY"))
           (default "https://openrouter.ai/api/v1"
                    (environ !! "OPENROUTER_BASE_URL"))
           (Some (_optional_header environ "OPENROUTER_APP_NAME" "X-Title"
                    (_optional_header environ "OPENROUTER_REFERER"
                       "HTTP-Referer" ∅))) st
    else (Raised (EnvironmentError api_key_must_be_set), st).
Proof.
  unfold get_openrouter_client__wrapped.
  by destruct (environ !! "OPENROUTER_API_KEY") as [[|a k]|].
Qed.

Lemma get_llm_client_well_behaved :
  well_behaved get_llm_client_cache get_llm_client__wrapped.
Proof.
  unfold well_behaved. split_and!; try done.
  - intros environ st r st'. rewrite get_llm_client__wrapped_eq.
    case_match; by intros [= <- <-].
  - intros environ st r st'. rewrite get_llm_client__wrapped_eq.
    case_match; intros [= <- <-]; simpl; lia.
  - intros environ st r st'. rewrite get_llm_client__wrapped_eq.
    case_match; by intros [= <- <-].
Qed.

Lemma get_openrouter_client_well_behaved :
  well_behaved get_openrouter_client_cache get_openrouter_client__wrapped.
Proof.
  unfold well_behaved. split_and!; try done.
  - intros environ st r st'. rewrite get_openrouter_client__wrapped_eq.
    case_match; by intros [= <- <-].
  - intros environ st r st'. rewrite get_openrouter_client__wrapped_eq.
    case_match; intros [= <- <-]; simpl; lia.
  - intros environ st r st'. rewrite get_openrouter_client__wrapped_eq.
    case_match; by intros [= <- <-].
Qed.

End factories.

(** ** The helpers on objects of the declared types *)

Section helpers_on_objects.
Import dynamic.

Lemma strings_of_strings (l : list string) : strings_of (PStr <$> l) = Ok l.
Proof. induction l as [|x l IH]; csimpl; [done | by rewrite IH]. Qed.

Lemma join_strings sep (l : list string) :
  join sep (PStr <$> l) = Ok (String.concat sep l).
Proof. unfold join. by rewrite strings_of_strings. Qed.

Lemma get_of_message (message : gmap string string) key otherwise :
  get (of_message message) key (PStr otherwise)
  = Ok (PStr (default otherwise (message !! key))).
Proof.
  unfold get, of_message. rewrite lookup_fmap.
  by destruct (message !! key).
Qed.

Lemma role_content_of_message role content :
  role_content (PStr role) (PStr content)
  = of_message (llm_client.role_content role content).
Proof.
  unfold role_content, of_message, llm_client.role_content.
  by rewrite !fmap_insert, fmap_empty.
Qed.

Lemma prepare_loop_of_messages messages parts conv :
  for_each prepare_loop_body (of_message <$> messages)
           (PStr <$> parts, of_message <$> conv)
  = Ok (PStr <$> (fold_left llm_client.prepare_loop_body messages
                            (parts, conv)).1,
        of_message <$> (fold_left llm_client.prepare_loop_body messages
                                  (parts, conv)).2).
Proof.
  revert parts conv.
  induction messages as [|m ms IH]; intros parts conv; [done|].
  csimpl. unfold prepare_loop_body at 1.
  rewrite !get_of_message. simpl.
  unfold llm_client.prepare_loop_body at 2 4. simpl.
  fold (message_role m). fold (message_content m).
  destruct (decide (message_role m = "system")) as [Hs|Hs].
  - rewrite bool_decide_eq_true_2 by done. simpl.
    rewrite <- IH. by rewrite fmap_app.
  - rewrite bool_decide_eq_false_2 by done. simpl.
    rewrite <- IH. by rewrite fmap_app, role_content_of_message.
Qed.

Lemma prepare_of_messages (messages : list (gmap string string)) :
  dynamic.prepare_responses_messages (PList (of_message <$> messages))
  = Ok (of_optional (llm_client.prepare_responses_messages messages).1,
        PList (of_message
                 <$> (llm_client.prepare_responses_messages messages).2)).
Proof.
  unfold dynamic.prepare_responses_messages. simpl.
  pose proof (prepare_loop_of_messages messages [] []) as Hloop.
  simpl in Hloop. rewrite Hloop. simpl.
  unfold llm_client.prepare_responses_messages.
  destruct (fold_left llm_client.prepare_loop_body messages ([], []))
    as [parts conv]. simpl.
  destruct parts as [|x parts]; destruct conv as [|c conv]; csimpl.
  - by rewrite role_content_of_message.
  - done.
  - pose proof (join_strings Py.blank_line (x :: parts)) as Hj.
    csimpl in Hj. unfold Py.blank_line in Hj. rewrite Hj. simpl.
    by rewrite role_content_of_message.
  - pose proof (join_strings Py.blank_line (x :: parts)) as Hj.
    csimpl in Hj. unfold Py.blank_line in Hj. by rewrite Hj.
Qed.

Lemma equals_str_as_str attributes dump name s :
  equals_str (getattr (PObject attributes dump) name PNone) s
  = bool_decide (as_str (attributes !! name) = Some s).
Proof.
  simpl. destruct (attributes !! name) as [[]|]; simpl; try done.
  apply bool_decide_ext. split; congruence.
Qed.

Lemma extract_content_typed parts content :
  typed_content content →
  extract_content (PStr <$> parts) content
  = Ok (PStr <$> llm_client.extract_content parts (to_content content)).
Proof.
  intros [(a & d & ->) Htext]. simpl in Htext.
  unfold extract_content, llm_client.extract_content.
  rewrite equals_str_as_str. simpl.
  destruct (decide (as_str (a !! "type") = Some "output_text")) as [Ht|Ht].
  - rewrite bool_decide_eq_true_2 by done. rewrite fmap_app. simpl.
    destruct (a !! "text") as [v|]; [|done].
    by destruct Htext as [t ->].
  - by rewrite bool_decide_eq_false_2.
Qed.

Lemma extract_contents_typed contents parts :
  Forall typed_content contents →
  for_each extract_content contents (PStr <$> parts)
  = Ok (PStr <$> fold_left llm_client.extract_content
                           (to_content <$> contents) parts).
Proof.
  intros Hall. revert parts.
  induction Hall as [|c cs Hc _ IH]; intros parts; [done|].
  csimpl. rewrite (extract_content_typed _ _ Hc). simpl. apply IH.
Qed.

Lemma extract_item_typed parts item :
  typed_item item →
  extract_item (PStr <$> parts) item
  = Ok (PStr <$> llm_client.extract_item parts (to_item item)).
Proof.
  intros [(a & d & ->) Hcontent]. simpl in Hcontent.
  unfold extract_item, llm_client.extract_item.
  rewrite equals_str_as_str. simpl.
  destruct (decide (as_str (a !! "type") = Some "message")) as [Ht|Ht].
  - rewrite bool_decide_eq_true_2, decide_False by tauto. simpl.
    destruct (a !! "content") as [v|]; [|done].
    destruct v; try done; try by destruct Hcontent as (? & ? & _).
    destruct Hcontent as (l & [= <-] & Hall). simpl.
    destruct items as [|c cs]; [done|].
    apply (extract_contents_typed (c :: cs) parts Hall).
  - by rewrite bool_decide_eq_false_2, decide_True by tauto.
Qed.

Lemma extract_items_typed items parts :
  Forall typed_item items →
  for_each extract_item items (PStr <$> parts)
  = Ok (PStr <$> fold_left llm_client.extract_item (to_item <$> items) parts).
Proof.
  intros Hall. revert parts.
  induction Hall as [|i items Hi _ IH]; intros parts; [done|].
  csimpl. rewrite (extract_item_typed _ _ Hi). simpl. apply IH.
Qed.

Lemma extract_typed response :
  typed_response response →
  dynamic.extract_response_text response
  = Ok (PStr (llm_client.extract_response_text (to_response response))).
Proof.
  intros ((a & d & ->) & Htext & Houtput). simpl in Htext, Houtput.
  unfold dynamic.extract_response_text, llm_client.extract_response_text.
  simpl.
  assert (∀ items, Forall typed_item items →
            bind (for_each extract_item items [])
                 (λ text_parts, bind (join "" text_parts) (λ s, Ok (PStr s)))
            = Ok (PStr (Py.join "" (fold_left llm_client.extract_item
                                              (to_item <$> items) []))))
    as Hscan.
  { intros items Hall.
    pose proof (extract_items_typed items [] Hall) as H. simpl in H.
    rewrite H. simpl. by rewrite join_strings. }
  assert (∀ v, optional (is_list_of typed_item) v →
            bind (iterate (or_else (default (PList []) v) (PList [])))
                 (λ items,
                    bind (for_each extract_item items [])
                         (λ text_parts,
                            bind (join "" text_parts) (λ s, Ok (PStr s))))
            = Ok (PStr (Py.join ""
                    (fold_left llm_client.extract_item
                       (default []
                          match v with
                          | Some (PList items) => Some (to_item <$> items)
                          | _ => None
                          end) []))))
    as Houter.
  { intros [v|] Hv; [|done].
    destruct v; try done; try by destruct Hv as (? & ? & _).
    destruct Hv as (l & [= <-] & Hall).
    destruct items as [|i items]; [done|]. apply (Hscan _ Hall). }
  destruct (a !! "output_text") as [v|]; simpl.
  - destruct v; try done; try by destruct Htext.
    + by apply Houter.
    + destruct s as [|c s]; simpl; [by apply Houter | done].
  - by apply Houter.
Qed.

Lemma setdefault_fmap {A B} (f : A → B) k v (d : gmap string A) :
  Py.setdefault k (f v) (f <$> d) = f <$> Py.setdefault k v d.
Proof.
  unfold Py.setdefault. rewrite lookup_fmap.
  destruct (d !! k); simpl; [done | by rewrite fmap_insert].
Qed.

Lemma default_of_json (o : option json) :
  default PNone (of_json <$> o) = of_json (default JNull o).
Proof. by destruct o. Qed.

Lemma response_to_dict_typed attributes (dump : gmap string json) :
  dynamic.response_to_dict
    (PObject attributes (Some (PDict (of_json <$> dump))))
  = Ok (PDict (of_json <$> llm_client.response_to_dict
                             (response_of_dump dump))).
Proof.
  unfold dynamic.response_to_dict, llm_client.response_to_dict. simpl.
  rewrite lookup_fmap.
  destruct (dump !! "usage") as [usage|]; simpl; [|done].
  destruct usage; simpl; try done.
  rewrite !lookup_fmap, !default_of_json, !setdefault_fmap.
  by rewrite fmap_insert.
Qed.

End helpers_on_objects.

(** ** The required credential *)

Section credential.

Lemma get_llm_client_raises environ st :
  Py.truthy (environ !! "OPENROUTER_API_KEY") = false →
  llm_client_cache st = None →
  get_llm_client environ st = (Raised (RuntimeError api_key_not_set), st).
Proof.
  intros Hkey Hcache. unfold get_llm_client, lru_cache. simpl.
  by rewrite Hcache, get_llm_client__wrapped_eq, Hkey.
Qed.

Lemma get_openrouter_client_raises environ st :
  Py.truthy (environ !! "OPENROUTER_API_KEY") = false →
  openrouter_client_cache st = None →
  get_openrouter_client environ st
  = (Raised (EnvironmentError api_key_must_be_set), st).
Proof.
  intros Hkey Hcache. unfold get_openrouter_client, lru_cache. simpl.
  by rewrite Hcache, get_openrouter_client__wrapped_eq, Hkey.
Qed.

Lemma get_llm_client_raised environ st e st' :
  get_llm_client environ st = (Raised e, st') →
  Py.truthy (environ !! "OPENROUTER_API_KEY") = false
  ∧ e = RuntimeError api_key_not_set ∧ st' = st.
Proof.
  intros Hcall.
  destruct get_llm_client_well_behaved as (_ & _ & _ & _ & Hraised).
  apply (lru_cache_raised _ _ Hraised) in Hcall as (_ & Hw & ->).
  rewrite get_llm_client__wrapped_eq in Hw.
  destruct (Py.truthy (environ !! "OPENROUTER_API_KEY")); [done|].
  by injection Hw as <-.
Qed.

Lemma get_openrouter_client_raised environ st e st' :
  get_openrouter_client environ st = (Raised e, st') →
  Py.truthy (environ !! "OPENROUTER_API_KEY") = false
  ∧ e = EnvironmentError api_key_must_be_set ∧ st' = st.
Proof.
  intros Hcall.
  destruct get_openrouter_client_well_behaved as (_ & _ & _ & _ & Hraised).
  apply (lru_cache_raised _ _ Hraised) in Hcall as (_ & Hw & ->).
  rewrite get_openrouter_client__wrapped_eq in Hw.
  destruct (Py.truthy (environ !! "OPENROUTER_API_KEY")); [done|].
  by injection Hw as <-.
Qed.

Lemma sdk_get_llm_client_OpenAI_new environ st :
  sdk.get_llm_client OpenAI_new environ st = get_llm_client environ st.
Proof. reflexivity. Qed.

Lemma sdk_get_openrouter_client_OpenAI_new environ st :
  sdk.get_openrouter_client OpenAI_new environ st
  = get_openrouter_client environ st.
Proof. reflexivity. Qed.

Lemma sdk_get_llm_client_raised construct environ st e st' :
  sdk.get_llm_client construct environ st = (Raised e, st') →
  (Py.truthy (environ !! "OPENROUTER_API_KEY") = false
   ∧ e = RuntimeError api_key_not_set ∧ st' = st)
  ∨ (∃ key,
       environ !! "OPENROUTER_API_KEY" = Some key ∧ key ≠ ""
       ∧ construct key
           (default "https://openrouter.ai/api/v1"
                    (environ !! "OPENROUTER_BASE_URL"))
           (_build_default_headers environ) st
         = (Raised e, st')).
Proof.
  unfold sdk.get_llm_client, lru_cache, sdk.get_llm_client__wrapped. simpl.
  destruct (llm_client_cache st); [done|].
  destruct (environ !! "OPENROUTER_API_KEY") as [[|a k]|]; simpl.
  - intros [= <- <-]. by left.
  - destruct (construct _ _ _ st) as [[c|e'] st1] eqn:Hc; intros [= <- <-].
    right. by exists (String a k).
  - intros [= <- <-]. by left.
Qed.

Lemma sdk_get_openrouter_client_raised construct environ st e st' :
  sdk.get_openrouter_client construct environ st = (Raised e, st') →
  (Py.truthy (environ !! "OPENROUTER_API_KEY") = false
   ∧ e = EnvironmentError api_key_must_be_set ∧ st' = st)
  ∨ (∃ key,
       environ !! "OPENROUTER_API_KEY" = Some key ∧ key ≠ ""
       ∧ construct key
           (default "https://openrouter.ai/api/v1"
                    (environ !! "OPENROUTER_BASE_URL"))
           (Some (_optional_header environ "OPENROUTER_APP_NAME" "X-Title"
                    (_optional_header environ "OPENROUTER_REFERER"
                       "HTTP-Referer" ∅))) st
         = (Raised e, st')).
Proof.
  unfold sdk.get_openrouter_client, lru_cache,
    sdk.get_openrouter_client__wrapped. simpl.
  destruct (openrouter_client_cache st); [done|].
  destruct (environ !! "OPENROUTER_API_KEY") as [[|a k]|]; simpl.
  - intros [= <- <-]. by left.
  - destruct (construct _ _ _ st) as [[c|e'] st1] eqn:Hc; intros [= <- <-].
    right. by exists (String a k).
  - intros [= <- <-]. by left.
Qed.

(** C5. With OPENROUTER_API_KEY not set, a factory that has to
    construct its client raises at once, before the SDK constructor is
    reached: [get_llm_client] a RuntimeError and [get_openrouter_client]
    an EnvironmentError, each with a message naming the variable to set;
    no client is returned, cached or allocated.  It is the only failure
    of the component: whatever the SDK constructor does, a factory raises
    either this error, the credential being missing or empty, or an
    exception that the constructor itself raised; and on inputs of their
    declared types, optional attributes missing or [None], the three
    helpers never raise but return what their typed models compute,
    although a missing method, a non-iterable or a non-string would
    raise. *)
Theorem missing_credential_raises
    (environ : gmap string string) (st : state) :
  environ !! "OPENROUTER_API_KEY" = None →
  (llm_client_cache st = None →
   get_llm_client environ st = (Raised (RuntimeError api_key_not_set), st))
  ∧ (openrouter_client_cache st = None →
     get_openrouter_client environ st
     = (Raised (EnvironmentError api_key_must_be_set), st))
  ∧ String.prefix "OPENROUTER_API_KEY is not set. Configure your OpenRouter API key"
                  api_key_not_set = true
  ∧ String.prefix "OPENROUTER_API_KEY must be set" api_key_must_be_set = true
  ∧ (∀ construct,
       (llm_client_cache st = None →
        sdk.get_llm_client construct environ st
        = (Raised (RuntimeError api_key_not_set), st))
       ∧ (openrouter_client_cache st = None →
          sdk.get_openrouter_client construct environ st
          = (Raised (EnvironmentError api_key_must_be_set), st)))
  ∧ (∀ construct environ' st0 e st',
       sdk.get_llm_client construct environ' st0 = (Raised e, st') →
       (Py.truthy (environ' !! "OPENROUTER_API_KEY") = false
        ∧ e = RuntimeError api_key_not_set ∧ st' = st0)
       ∨ (∃ key,
            environ' !! "OPENROUTER_API_KEY" = Some key ∧ key ≠ ""
            ∧ construct key
                (default "https://openrouter.ai/api/v1"
                         (environ' !! "OPENROUTER_BASE_URL"))
                (_build_default_headers environ') st0
              = (Raised e, st')))
  ∧ (∀ construct environ' st0 e st',
       sdk.get_openrouter_client construct environ' st0 = (Raised e, st') →
       (Py.truthy (environ' !! "OPENROUTER_API_KEY") = false
        ∧ e = EnvironmentError api_key_must_be_set ∧ st' = st0)
       ∨ (∃ key,
            environ' !! "OPENROUTER_API_KEY" = Some key ∧ key ≠ ""
            ∧ construct key
                (default "https://openrouter.ai/api/v1"
                         (environ' !! "OPENROUTER_BASE_URL"))
                (Some (_optional_header environ' "OPENROUTER_APP_NAME"
                         "X-Title"
                         (_optional_header environ' "OPENROUTER_REFERER"
                            "HTTP-Referer" ∅))) st0
              = (Raised e, st')))
  ∧ (∀ messages : list (gmap string string),
       dynamic.prepare_responses_messages
         (dynamic.PList (of_message <$> messages))
       = dynamic.Ok
           (of_optional (prepare_responses_messages messages).1,
            dynamic.PList
              (of_message <$> (prepare_responses_messages messages).2)))
  ∧ (∀ response,
       typed_response response →
       dynamic.extract_response_text response
       = dynamic.Ok
           (dynamic.PStr (extract_response_text (to_response response))))
  ∧ (∀ attributes (dump : gmap string json),
       dynamic.response_to_dict
         (dynamic.PObject attributes
            (Some (dynamic.PDict (of_json <$> dump))))
       = dynamic.Ok
           (dynamic.PDict
              (of_json <$> response_to_dict (response_of_dump dump))))
  ∧ dynamic.prepare_responses_messages (dynamic.PList [dynamic.PNone])
    = dynamic.Fails dynamic.AttributeError
  ∧ dynamic.extract_response_text response_with_none_text
    = dynamic.Fails dynamic.TypeError
  ∧ dynamic.response_to_dict (dynamic.PDict ∅)
    = dynamic.Fails dynamic.AttributeError.
Proof.
  intros Hkey. split_and!.
  - apply get_llm_client_raises. by rewrite Hkey.
  - apply get_openrouter_client_raises. by rewrite Hkey.
  - reflexivity.
  - reflexivity.
  - intros construct. split; intros Hcache.
    + unfold sdk.get_llm_client, lru_cache, sdk.get_llm_client__wrapped.
      simpl. by rewrite Hcache, Hkey.
    + unfold sdk.get_openrouter_client, lru_cache,
        sdk.get_openrouter_client__wrapped.
      simpl. by rewrite Hcache, Hkey.
  - apply sdk_get_llm_client_raised.
  - apply sdk_get_openrouter_client_raised.
  - apply prepare_of_messages.
  - apply extract_typed.
  - apply response_to_dict_typed.
  - reflexivity.
  - reflexivity.
  - reflexivity.
Qed.

Lemma missing_credential_raises_witness :
  get_llm_client ∅ initial = (Raised (RuntimeError api_key_not_set), initial)
  ∧ get_openrouter_client ∅ initial
    = (Raised (EnvironmentError api_key_must_be_set), initial)
  ∧ sdk.get_llm_client refusing_constructor ∅ initial
    = (Raised (RuntimeError api_key_not_set), initial)
  ∧ (∃ key, environ_key_only !! "OPENROUTER_API_KEY" = Some key
            ∧ refusing_constructor key "https://openrouter.ai/api/v1"
                                   None initial
              = (Raised (RuntimeError "refused"), initial))
  ∧ dynamic.extract_response_text
      (dynamic.PObject {[ "output" := dynamic.PNone ]} None)
    = dynamic.Ok (dynamic.PStr "").
Proof.
  destruct (missing_credential_raises ∅ initial)
    as (H1 & H2 & _ & _ & H5 & H6 & _ & _ & H9 & _).
  - reflexivity.
  - split_and!.
    + apply H1. reflexivity.
    + apply H2. reflexivity.
    + apply (H5 refusing_constructor). reflexivity.
    + destruct (H6 refusing_constructor environ_key_only initial
                  (RuntimeError "refused") initial eq_refl)
        as [(Hfalse & _) | (key & Hk & _ & Hc)].
      * discriminate Hfalse.
      * exists key. split; [exact Hk | exact Hc].
    + rewrite (H9 (dynamic.PObject {[ "output" := dynamic.PNone ]} None));
        [reflexivity|].
      split_and!; [by eexists _, _ | by vm_compute | by vm_compute].
Defined.

(** C10. An OPENROUTER_API_KEY set to the empty string is treated by both
    factories exactly as an absent one: the call behaves as under the
    environment without the variable, and a factory that has to
    construct its client raises its configuration error. *)
Theorem empty_credential_is_absent
    (environ : gmap string string) (st : state) :
  environ !! "OPENROUTER_API_KEY" = Some "" →
  get_llm_client environ st
  = get_llm_client (delete "OPENROUTER_API_KEY" environ) st
  ∧ get_openrouter_client environ st
    = get_openrouter_client (delete "OPENROUTER_API_KEY" environ) st
  ∧ (llm_client_cache st = None →
     get_llm_client environ st = (Raised (RuntimeError api_key_not_set), st))
  ∧ (openrouter_client_cache st = None →
     get_openrouter_client environ st
     = (Raised (EnvironmentError api_key_must_be_set), st)).
Proof.
  intros Hkey. split_and!.
  - unfold get_llm_client, lru_cache. simpl.
    destruct (llm_client_cache st); [done|].
    rewrite !get_llm_client__wrapped_eq.
    by rewrite Hkey, lookup_delete_eq.
  - unfold get_openrouter_client, lru_cache. simpl.
    destruct (openrouter_client_cache st); [done|].
    rewrite !get_openrouter_client__wrapped_eq.
    by rewrite Hkey, lookup_delete_eq.
  - apply get_llm_client_raises. by rewrite Hkey.
  - apply get_openrouter_client_raises. by rewrite Hkey.
Qed.

Lemma empty_credential_is_absent_witness :
  get_llm_client environ_empty_key initial
  = (Raised (RuntimeError api_key_not_set), initial)
  ∧ get_openrouter_client environ_empty_key initial
    = (Raised (EnvironmentError api_key_must_be_set), initial).
Proof.
  destruct (empty_credential_is_absent environ_empty_key initial)
    as (_ & _ & H1 & H2).
  - reflexivity.
  - split; [apply H1 | apply H2]; reflexivity.
Defined.

End credential.

(** ** One client per process *)

Section singleton.

Lemma perform_keeps_llm_client c st client :
  llm_client_cache st = Some client →
  llm_client_cache (perform c st).2 = Some client.
Proof.
  intros Hc. destruct c as [environ|environ]; simpl.
  - unfold get_llm_client, lru_cache. simpl. by rewrite Hc.
  - unfold get_openrouter_client, lru_cache. simpl.
    destruct (openrouter_client_cache st); [done|].
    rewrite get_openrouter_client__wrapped_eq.
    by destruct (Py.truthy (environ !! "OPENROUTER_API_KEY")).
Qed.

Lemma perform_keeps_openrouter_client c st client :
  openrouter_client_cache st = Some client →
  openrouter_client_cache (perform c st).2 = Some client.
Proof.
  intros Hc. destruct c as [environ|environ]; simpl.
  - unfold get_llm_client, lru_cache. simpl.
    destruct (llm_client_cache st); [done|].
    rewrite get_llm_client__wrapped_eq.
    by destruct (Py.truthy (environ !! "OPENROUTER_API_KEY")).
  - unfold get_openrouter_client, lru_cache. simpl. by rewrite Hc.
Qed.

Lemma perform_all_keeps_llm_client cs st client :
  llm_client_cache st = Some client →
  llm_client_cache (perform_all cs st) = Some client.
Proof.
  revert st. induction cs as [|c cs IH]; intros st Hc; [done|].
  apply IH. by apply perform_keeps_llm_client.
Qed.

Lemma perform_all_keeps_openrouter_client cs st client :
  openrouter_client_cache st = Some client →
  openrouter_client_cache (perform_all cs st) = Some client.
Proof.
  revert st. induction cs as [|c cs IH]; intros st Hc; [done|].
  apply IH. by apply perform_keeps_openrouter_client.
Qed.

(** C6. Once a call of a factory has returned a client, every later call
    of that factory in the process, whatever the environment then is and
    whatever calls of the two factories happened in between, returns that
    same object and leaves the process state as it is: nothing is
    constructed and the environment is not consulted.  Any sequence of
    calls of one factory constructs at most one client. *)
Theorem cached_client_is_reused
    (environ : gmap string string) (st st' : state) (client : OpenAI) :
  (get_llm_client environ st = (Returned client, st') →
   (∀ between environ',
      get_llm_client environ' (perform_all between st')
      = (Returned client, perform_all between st'))
   ∧ (∀ environs,
        calls get_llm_client environs st'
        = (replicate (length environs) (Returned client), st')))
  ∧ (get_openrouter_client environ st = (Returned client, st') →
     (∀ between environ',
        get_openrouter_client environ' (perform_all between st')
        = (Returned client, perform_all between st'))
     ∧ (∀ environs,
          calls get_openrouter_client environs st'
          = (replicate (length environs) (Returned client), st')))
  ∧ (∀ environs,
       allocated (calls get_llm_client environs st).2 ≤ S (allocated st))
  ∧ (∀ environs,
       allocated (calls get_openrouter_client environs st).2
       ≤ S (allocated st)).
Proof.
  destruct get_llm_client_well_behaved as (L1 & L2 & L3 & L4 & L5).
  destruct get_openrouter_client_well_behaved as (O1 & O2 & O3 & O4 & O5).
  split_and!.
  - intros Hcall. apply (lru_cache_returned _ _ L1) in Hcall.
    split.
    + intros between environ'. apply lru_cache_hit.
      by apply perform_all_keeps_llm_client.
    + intros environs. by apply calls_cached.
  - intros Hcall. apply (lru_cache_returned _ _ O1) in Hcall.
    split.
    + intros between environ'. apply lru_cache_hit.
      by apply perform_all_keeps_openrouter_client.
    + intros environs. by apply calls_cached.
  - intros environs. by apply calls_allocate_once.
  - intros environs. by apply calls_allocate_once.
Qed.

Lemma cached_client_is_reused_witness :
  get_llm_client environ_key_only initial
  = (Returned first_client, after_first_call)
  ∧ get_llm_client ∅ after_first_call
    = (Returned first_client, after_first_call)
  ∧ calls get_llm_client [∅; environ_both_titles] after_first_call
    = ([Returned first_client; Returned first_client], after_first_call).
Proof.
  assert (get_llm_client environ_key_only initial
          = (Returned first_client, after_first_call)) as Hcall.
  { reflexivity. }
  destruct (cached_client_is_reused environ_key_only initial
              after_first_call first_client) as (H & _).
  destruct (H Hcall) as [H1 H2].
  split_and!.
  - exact Hcall.
  - exact (H1 [] ∅).
  - exact (H2 [∅; environ_both_titles]).
Defined.

End singleton.

(** ** Default headers *)

Section default_headers_spec.

Lemma header_or_none (h : gmap string string) name :
  header (if decide (h = ∅) then None else Some h) name = h !! name.
Proof. case_decide; subst; simpl; [by rewrite lookup_empty | done]. Qed.

Lemma nonempty_value_cases v :
  (nonempty_value v = None ∧ Py.truthy v = false)
  ∨ (∃ a k, v = Some (String a k) ∧ nonempty_value v = v).
Proof. destruct v as [[|a k]|]; eauto. Qed.

Lemma build_default_headers_header environ name :
  header (_build_default_headers environ) name
  = if decide (name = "X-Title")
    then nonempty_value (Py.or_else (environ !! "OPENROUTER_TITLE")
                                    (environ !! "OPENROUTER_X_TITLE"))
    else if decide (name = "HTTP-Referer")
         then nonempty_value (environ !! "OPENROUTER_HTTP_REFERER")
         else None.
Proof.
  unfold _build_default_headers.
  destruct (environ !! "OPENROUTER_HTTP_REFERER") as [[|a r]|];
    destruct (Py.or_else _ _) as [[|b t]|]; simpl;
    rewrite header_or_none;
    repeat case_decide; subst;
    rewrite ?lookup_insert_eq, ?lookup_insert_ne, ?lookup_empty by done;
    done.
Qed.

Lemma build_default_headers_none environ :
  nonempty_value (environ !! "OPENROUTER_HTTP_REFERER") = None →
  nonempty_value (Py.or_else (environ !! "OPENROUTER_TITLE")
                             (environ !! "OPENROUTER_X_TITLE")) = None →
  _build_default_headers environ = None.
Proof.
  unfold _build_default_headers.
  destruct (environ !! "OPENROUTER_HTTP_REFERER") as [[|a r]|];
    destruct (Py.or_else _ _) as [[|b t]|]; simpl; try done.
Qed.

Lemma build_default_headers_some environ :
  (nonempty_value (environ !! "OPENROUTER_HTTP_REFERER") ≠ None
   ∨ nonempty_value (Py.or_else (environ !! "OPENROUTER_TITLE")
                                (environ !! "OPENROUTER_X_TITLE")) ≠ None) →
  is_Some (_build_default_headers environ).
Proof.
  unfold _build_default_headers.
  destruct (environ !! "OPENROUTER_HTTP_REFERER") as [[|a r]|];
    destruct (Py.or_else _ _) as [[|b t]|]; simpl;
    intros [H|H]; try done;
    rewrite decide_False by apply insert_non_empty; eauto.
Qed.

Lemma optional_header_lookup environ name hdr (h : gmap string string) k :
  _optional_header environ name hdr h !! k
  = if decide (k = hdr)
    then match nonempty_value (environ !! name) with
         | Some v => Some v
         | None => h !! k
         end
    else h !! k.
Proof.
  unfold _optional_header.
  destruct (environ !! name) as [[|a v]|]; simpl;
    case_decide; subst;
    rewrite ?lookup_insert_eq, ?lookup_insert_ne by done; done.
Qed.

Lemma optional_header_unset environ name hdr (h : gmap string string) :
  nonempty_value (environ !! name) = None →
  _optional_header environ name hdr h = h.
Proof.
  unfold _optional_header. by destruct (environ !! name) as [[|a v]|].
Qed.

Lemma get_llm_client_constructs environ st client st' :
  llm_client_cache st = None →
  get_llm_client environ st = (Returned client, st') →
  default_headers client = _build_default_headers environ.
Proof.
  intros Hcache. unfold get_llm_client, lru_cache. simpl. rewrite Hcache.
  rewrite get_llm_client__wrapped_eq.
  destruct (Py.truthy (environ !! "OPENROUTER_API_KEY")); [|done].
  simpl. by intros [= <- _].
Qed.

Lemma get_openrouter_client_constructs environ st client st' :
  openrouter_client_cache st = None →
  get_openrouter_client environ st = (Returned client, st') →
  default_headers client
  = Some (_optional_header environ "OPENROUTER_APP_NAME" "X-Title"
            (_optional_header environ "OPENROUTER_REFERER" "HTTP-Referer" ∅)).
Proof.
  intros Hcache. unfold get_openrouter_client, lru_cache. simpl.
  rewrite Hcache, get_openrouter_client__wrapped_eq.
  destruct (Py.truthy (environ !! "OPENROUTER_API_KEY")); [|done].
  simpl. by intros [= <- _].
Qed.

(** C7, as amended.  When [get_llm_client] constructs its client it
    passes [_build_default_headers()]: no mapping at all ([None]) when
    none of OPENROUTER_HTTP_REFERER, OPENROUTER_TITLE and
    OPENROUTER_X_TITLE holds a non-empty value, and otherwise a mapping
    with HTTP-Referer and X-Title for the variables that do.  When
    [get_openrouter_client] constructs its client it always passes a
    mapping, with HTTP-Referer and X-Title for those of
    OPENROUTER_REFERER and OPENROUTER_APP_NAME that hold a non-empty
    value, and empty when neither does. *)
Theorem default_headers_of_new_client
    (environ : gmap string string) (st st' : state) (client : OpenAI) :
  (llm_client_cache st = None →
   get_llm_client environ st = (Returned client, st') →
   default_headers client = _build_default_headers environ
   ∧ header (default_headers client) "HTTP-Referer"
     = nonempty_value (environ !! "OPENROUTER_HTTP_REFERER")
   ∧ header (default_headers client) "X-Title"
     = nonempty_value (Py.or_else (environ !! "OPENROUTER_TITLE")
                                  (environ !! "OPENROUTER_X_TITLE"))
   ∧ (default_headers client = None ↔
      nonempty_value (environ !! "OPENROUTER_HTTP_REFERER") = None
      ∧ nonempty_value (Py.or_else (environ !! "OPENROUTER_TITLE")
                                   (environ !! "OPENROUTER_X_TITLE")) = None))
  ∧ (openrouter_client_cache st = None →
     get_openrouter_client environ st = (Returned client, st') →
     ∃ headers : gmap string string,
       default_headers client = Some headers
       ∧ headers !! "HTTP-Referer"
         = nonempty_value (environ !! "OPENROUTER_REFERER")
       ∧ headers !! "X-Title"
         = nonempty_value (environ !! "OPENROUTER_APP_NAME")
       ∧ (nonempty_value (environ !! "OPENROUTER_REFERER") = None →
          nonempty_value (environ !! "OPENROUTER_APP_NAME") = None →
          headers = ∅)).
Proof.
  split.
  - intros Hcache Hcall.
    rewrite (get_llm_client_constructs _ _ _ _ Hcache Hcall).
    split_and!; [done| | |].
    + by rewrite build_default_headers_header.
    + by rewrite build_default_headers_header.
    + split.
      * intros Hnone.
        destruct (nonempty_value (environ !! "OPENROUTER_HTTP_REFERER"))
          as [r|] eqn:Hr;
          destruct (nonempty_value (Py.or_else _ _)) as [t|] eqn:Ht;
          try done;
          destruct (build_default_headers_some environ) as [h Hh];
          rewrite ?Hr, ?Ht; eauto; congruence.
      * intros [Hr Ht]. by apply build_default_headers_none.
  - intros Hcache Hcall.
    rewrite (get_openrouter_client_constructs _ _ _ _ Hcache Hcall).
    eexists. split; [done|]. split_and!.
    + rewrite !optional_header_lookup. simpl. rewrite lookup_empty.
      by destruct (nonempty_value _).
    + rewrite !optional_header_lookup. simpl.
      destruct (nonempty_value (environ !! "OPENROUTER_APP_NAME")); [done|].
      by rewrite lookup_empty.
    + intros Hr Ha. by rewrite !optional_header_unset.
Qed.

Lemma default_headers_of_new_client_witness :
  (get_openrouter_client environ_openrouter_headers initial).1
  = Returned planner_client
  ∧ header (default_headers planner_client) "HTTP-Referer"
    = Some "https://example.org"
  ∧ header (default_headers planner_client) "X-Title" = Some "planner".
Proof.
  destruct (get_openrouter_client environ_openrouter_headers initial)
    as [r st'] eqn:Hcall.
  assert (r = Returned planner_client) as ->.
  { vm_compute in Hcall. by injection Hcall as <- _. }
  split; [reflexivity|].
  destruct (default_headers_of_new_client
              environ_openrouter_headers initial st' planner_client)
    as [_ H].
  destruct (H eq_refl Hcall) as (h & Hh & Hr & Ht & _).
  rewrite Hh. simpl. split; [rewrite Hr | rewrite Ht]; reflexivity.
Defined.

(** C7 as stated fails twice: [get_openrouter_client] hands the client
    an empty mapping, not [None], when neither of its header variables is
    set; and a header variable that is set to the empty string adds no
    header. *)
Lemma default_headers_not_omitted :
  ¬ (∀ environ st client st',
       environ !! "OPENROUTER_REFERER" = None →
       environ !! "OPENROUTER_APP_NAME" = None →
       openrouter_client_cache st = None →
       get_openrouter_client environ st = (Returned client, st') →
       default_headers client = None)
  ∧ ¬ (∀ environ st client st' value,
         environ !! "OPENROUTER_HTTP_REFERER" = Some value →
         llm_client_cache st = None →
         get_llm_client environ st = (Returned client, st') →
         header (default_headers client) "HTTP-Referer" = Some value).
Proof.
  split.
  - intros Hclaim.
    destruct (get_openrouter_client environ_key_only initial)
      as [r st'] eqn:Hcall.
    vm_compute in Hcall. injection Hcall as <- <-.
    specialize (Hclaim environ_key_only initial _ _
                       eq_refl eq_refl eq_refl eq_refl).
    discriminate Hclaim.
  - intros Hclaim.
    destruct (get_llm_client environ_empty_referer initial)
      as [r st'] eqn:Hcall.
    vm_compute in Hcall. injection Hcall as <- <-.
    specialize (Hclaim environ_empty_referer initial _ _ ""
                       eq_refl eq_refl eq_refl).
    discriminate Hclaim.
Qed.

(** C8. The X-Title header takes its value from OPENROUTER_TITLE when
    that variable is set to a non-empty value, whatever
    OPENROUTER_X_TITLE is; otherwise from OPENROUTER_X_TITLE, the header
    being left out when that one is unset or empty as well.  The client
    [get_llm_client] constructs carries exactly these headers. *)
Theorem title_first_present_wins (environ : gmap string string) :
  (∀ title, environ !! "OPENROUTER_TITLE" = Some title → title ≠ "" →
            header (_build_default_headers environ) "X-Title" = Some title)
  ∧ (Py.truthy (environ !! "OPENROUTER_TITLE") = false →
     header (_build_default_headers environ) "X-Title"
     = nonempty_value (environ !! "OPENROUTER_X_TITLE"))
  ∧ (∀ st client st',
       llm_client_cache st = None →
       get_llm_client environ st = (Returned client, st') →
       default_headers client = _build_default_headers environ).
Proof.
  split_and!.
  - intros title Ht Hne. rewrite build_default_headers_header. simpl.
    rewrite Ht. by destruct title.
  - intros Hfalse. rewrite build_default_headers_header. simpl.
    unfold Py.or_else. by rewrite Hfalse.
  - intros st client st'. apply get_llm_client_constructs.
Qed.

Lemma title_first_present_wins_witness :
  header (_build_default_headers environ_both_titles) "X-Title"
  = Some "planner"
  ∧ header (_build_default_headers environ_x_title_only) "X-Title"
    = Some "old-planner".
Proof.
  split.
  - by apply (title_first_present_wins environ_both_titles).
  - destruct (title_first_present_wins environ_x_title_only) as (_ & H & _).
    rewrite H; reflexivity.
Defined.

End default_headers_spec.

(** ** Threads entering a factory *)

Section thread_facts.
Variable s : slot.
Variable wrapped : gmap string string → state → result OpenAI * state.
Variable environ : gmap string string.
Hypothesis behaved : well_behaved s wrapped.

Lemma sum_list_insert (f : thread → nat) (l : list thread) i t t' :
  l !! i = Some t →
  sum_list (f <$> <[i := t']> l) + f t = sum_list (f <$> l) + f t'.
Proof.
  revert i. induction l as [|x l IH]; intros [|i] Hi; simplify_eq/=.
  - lia.
  - specialize (IH _ Hi). lia.
Qed.

Lemma may_construct_mono cache (l : list thread) :
  sum_list (may_construct cache <$> l)
  ≤ sum_list (may_construct None <$> l).
Proof.
  induction l as [|t l IH]; csimpl; [lia|].
  destruct t, cache; simpl; lia.
Qed.

Lemma schedule_step_budget p i :
  budget s (schedule_step s wrapped environ p i) ≤ budget s p.
Proof.
  destruct behaved as (Hgp & Hpa & Hwc & Hwa & _).
  unfold schedule_step, budget.
  destruct (threads p !! i) as [t|] eqn:Hi; [|done].
  destruct t as [| |[c|e]|r]; simpl.
  - destruct (cache_get s (shared p)) as [c|] eqn:Hc; simpl; rewrite Hc.
    + pose proof (sum_list_insert (may_construct (Some c)) _ _ _
                    (Finished (Returned c)) Hi) as Hs.
      simpl in Hs. lia.
    + pose proof (sum_list_insert (may_construct None) _ _ _ Missed Hi)
        as Hs.
      simpl in Hs. lia.
  - destruct (wrapped environ (shared p)) as [r st'] eqn:Hw. simpl.
    rewrite (Hwc _ _ _ _ Hw).
    pose proof (Hwa _ _ _ _ Hw).
    pose proof (sum_list_insert (may_construct (cache_get s (shared p)))
                  _ _ _ (Computed r) Hi) as Hs.
    simpl in Hs. lia.
  - destruct (cache_get s (shared p)) as [c'|] eqn:Hc; simpl.
    + rewrite Hc.
      pose proof (sum_list_insert (may_construct (Some c')) _ _ _
                    (Finished (Returned c)) Hi) as Hs.
      simpl in Hs. lia.
    + rewrite Hgp, Hpa.
      pose proof (may_construct_mono (Some c)
                    (<[i := Finished (Returned c)]> (threads p))).
      pose proof (sum_list_insert (may_construct None) _ _ _
                    (Finished (Returned c)) Hi) as Hs.
      simpl in Hs. lia.
  - pose proof (sum_list_insert (may_construct (cache_get s (shared p)))
                  _ _ _ (Finished (Raised e)) Hi) as Hs.
    simpl in Hs. lia.
  - done.
Qed.

Lemma run_budget schedule p :
  budget s (run s wrapped environ schedule p) ≤ budget s p.
Proof.
  revert p. induction schedule as [|i schedule IH]; intros p; simpl; [done|].
  etrans; [apply IH | apply schedule_step_budget].
Qed.

Lemma schedule_step_cached p i client :
  cache_get s (shared p) = Some client →
  cache_get s (shared (schedule_step s wrapped environ p i)) = Some client.
Proof.
  destruct behaved as (_ & _ & Hwc & _ & _).
  intros Hc. unfold schedule_step.
  destruct (threads p !! i) as [t|]; [|done].
  destruct t as [| |[c|e]|r]; simpl; rewrite ?Hc; try done.
  destruct (wrapped environ (shared p)) as [r st'] eqn:Hw. simpl.
  by rewrite (Hwc _ _ _ _ Hw).
Qed.

Lemma schedule_step_entering p i j client :
  cache_get s (shared p) = Some client →
  threads p !! j = Some Entering
  ∨ threads p !! j = Some (Finished (Returned client)) →
  threads (schedule_step s wrapped environ p i) !! j = Some Entering
  ∨ threads (schedule_step s wrapped environ p i) !! j
    = Some (Finished (Returned client)).
Proof.
  intros Hc Hj. unfold schedule_step.
  destruct (threads p !! i) as [t|] eqn:Hi; [|done].
  destruct (decide (i = j)) as [->|Hne].
  - pose proof (lookup_lt_Some _ _ _ Hi) as Hlt.
    destruct Hj as [Hj|Hj]; rewrite Hj in Hi; injection Hi as <-; simpl.
    + rewrite Hc. simpl. right. by apply list_lookup_insert_eq.
    + by right.
  - destruct (thread_step s wrapped environ t (shared p)) as [[t' st']|];
      simpl; [|done].
    by rewrite list_lookup_insert_ne.
Qed.

Lemma run_entering schedule p j client :
  cache_get s (shared p) = Some client →
  threads p !! j = Some Entering
  ∨ threads p !! j = Some (Finished (Returned client)) →
  cache_get s (shared (run s wrapped environ schedule p)) = Some client
  ∧ (threads (run s wrapped environ schedule p) !! j = Some Entering
     ∨ threads (run s wrapped environ schedule p) !! j
       = Some (Finished (Returned client))).
Proof.
  revert p. induction schedule as [|i schedule IH]; intros p Hc Hj; simpl;
    [done|].
  apply IH; [by apply schedule_step_cached | by apply schedule_step_entering].
Qed.

(** A thread alone in the process goes through [lru_cache]. *)
Lemma single_thread_is_lru_cache st :
  run s wrapped environ [0; 0; 0] (start 1 st)
  = {| threads := [Finished (lru_cache s wrapped environ st).1];
       shared := (lru_cache s wrapped environ st).2 |}.
Proof.
  destruct behaved as (_ & _ & Hwc & _ & _).
  unfold run, start, lru_cache. simpl. unfold schedule_step at 3. simpl.
  destruct (cache_get s st) as [c|] eqn:Hc; simpl; [done|].
  unfold schedule_step at 2. simpl.
  destruct (wrapped environ st) as [[c|e] st'] eqn:Hw; simpl.
  - unfold schedule_step. simpl.
    by rewrite (Hwc _ _ _ _ Hw), Hc.
  - done.
Qed.

Lemma start_budget n st :
  budget s (start n st)
  = allocated st + match cache_get s st with Some _ => 0 | None => n end.
Proof.
  unfold budget, start. simpl. f_equal.
  rewrite fmap_replicate, sum_list_replicate.
  destruct (cache_get s st); simpl; lia.
Qed.

Lemma threads_bound n st schedule :
  allocated (shared (run s wrapped environ schedule (start n st)))
  ≤ allocated st + match cache_get s st with Some _ => 0 | None => n end.
Proof.
  pose proof (run_budget schedule (start n st)) as Hrun.
  rewrite start_budget in Hrun. unfold budget in Hrun. lia.
Qed.

Lemma threads_after_cached n st schedule client j r :
  cache_get s st = Some client →
  threads (run s wrapped environ schedule (start n st)) !! j
  = Some (Finished r) →
  r = Returned client.
Proof.
  intros Hc Hj.
  destruct (decide (j < n)) as [Hlt|Hge].
  - destruct (run_entering schedule (start n st) j client) as [_ [H|H]].
    + done.
    + left. simpl. by apply lookup_replicate_2.
    + congruence.
    + congruence.
  - exfalso.
    assert (∀ p, length (threads (run s wrapped environ schedule p))
                 = length (threads p)) as Hlen.
    { clear. induction schedule as [|i schedule IH]; intros p; simpl; [done|].
      rewrite IH. unfold schedule_step.
      destruct (threads p !! i) as [t|]; [|done].
      destruct (thread_step _ _ _ _ _) as [[t' st']|]; [|done].
      simpl. by rewrite length_insert. }
    apply lookup_lt_Some in Hj. rewrite Hlen in Hj. simpl in Hj.
    rewrite length_replicate in Hj. lia.
Qed.

Lemma run_all_entering schedule p client :
  cache_get s (shared p) = Some client →
  Forall (λ t, t = Entering ∨ t = Finished (Returned client)) (threads p) →
  shared (run s wrapped environ schedule p) = shared p.
Proof.
  revert p. induction schedule as [|i schedule IH]; intros p Hc Hall; simpl;
    [done|].
  assert (shared (schedule_step s wrapped environ p i) = shared p
          ∧ Forall (λ t, t = Entering ∨ t = Finished (Returned client))
                   (threads (schedule_step s wrapped environ p i)))
    as [Hsh Hall'].
  { unfold schedule_step.
    destruct (threads p !! i) as [t|] eqn:Hi; [|done].
    pose proof (proj1 (Forall_lookup _ _) Hall _ _ Hi) as [-> | ->]; simpl.
    - rewrite Hc. simpl. split; [done|].
      apply Forall_insert; [done | by right].
    - done. }
  rewrite IH; [done | by rewrite Hsh | done].
Qed.

End thread_facts.

(** ** Threads that have all missed the cache *)

Section race_facts.
Variable s : slot.
Variable wrapped : gmap string string → state → result OpenAI * state.
Variable environ : gmap string string.
Hypothesis behaved : well_behaved s wrapped.
Hypothesis constructing : constructs wrapped environ.

Lemma missed_le_length (l : list thread) :
  sum_list (is_missed <$> l) ≤ length l.
Proof.
  induction l as [|t l IH]; csimpl; [lia|]. destruct t; simpl; lia.
Qed.

Lemma holds_insert_ne p i j t' st' client :
  i ≠ j →
  holds {| threads := <[i := t']> (threads p); shared := st' |} j client
  ↔ holds p j client.
Proof.
  intros Hne. unfold holds. simpl. by rewrite list_lookup_insert_ne.
Qed.

Lemma schedule_step_racing base p i :
  racing base p → racing base (schedule_step s wrapped environ p i).
Proof.
  destruct behaved as (_ & Hpa & _ & _ & _).
  intros (Hall & Hdistinct & Hcount). unfold schedule_step.
  destruct (threads p !! i) as [t|] eqn:Hi; [|done].
  pose proof (lookup_lt_Some _ _ _ Hi) as Hlt.
  pose proof (missed_le_length (threads p)) as Hle.
  unfold missed in Hcount.
  destruct (Hall _ _ Hi) as [-> | (c & [-> | ->] & Hid)]; simpl.
  - (* the thread runs the wrapped function *)
    destruct (constructing (shared p)) as (c & st' & Hw & Hc & Hst').
    rewrite Hw. split_and!; simpl.
    + intros k t Hk. destruct (decide (i = k)) as [<-|Hne].
      * rewrite list_lookup_insert_eq in Hk by done. injection Hk as <-.
        right. exists c. split; [by left | lia].
      * rewrite list_lookup_insert_ne in Hk by done.
        destruct (Hall _ _ Hk) as [-> | (c' & Hc' & Hid')]; [by left|].
        right. exists c'. split; [done | lia].
    + intros k j ck cj Hkj Hk Hj.
      assert (∀ m cm, i ≠ m → holds p m cm →
                      object_id cm < allocated (shared p)) as Hold.
      { intros m cm Hne [Hm | Hm];
          destruct (Hall _ _ Hm) as [? | (c' & [? | ?] & ?)];
          simplify_eq; lia. }
      assert (∀ cm, holds {| threads := <[i := Computed (Returned c)]>
                                          (threads p);
                             shared := st' |} i cm → cm = c) as Hnew.
      { intros cm [Hm | Hm]; simpl in Hm;
          rewrite list_lookup_insert_eq in Hm by done; by simplify_eq. }
      destruct (decide (i = k)) as [<-|Hik].
      * apply Hnew in Hk as ->. apply holds_insert_ne in Hj; [|done].
        apply Hold in Hj; [lia | done].
      * apply holds_insert_ne in Hk; [|done].
        destruct (decide (i = j)) as [<-|Hij].
        -- apply Hnew in Hj as ->. apply Hold in Hk; [lia | done].
        -- apply holds_insert_ne in Hj; [|done].
           exact (Hdistinct k j ck cj Hkj Hk Hj).
    + unfold missed. simpl. rewrite length_insert.
      pose proof (sum_list_insert is_missed _ _ _ (Computed (Returned c)) Hi)
        as Hs.
      simpl in Hs. lia.
  - (* the thread stores, unless the cache has been filled *)
    assert (allocated
              (match cache_get s (shared p) with
               | Some _ => (Finished (Returned c), shared p)
               | None => (Finished (Returned c), cache_put s c (shared p))
               end).2 = allocated (shared p)) as Halloc.
    { destruct (cache_get s (shared p)); simpl; [done | apply Hpa]. }
    assert (match cache_get s (shared p) with
            | Some _ => Some (Finished (Returned c), shared p)
            | None => Some (Finished (Returned c), cache_put s c (shared p))
            end
            = Some (Finished (Returned c),
                    (match cache_get s (shared p) with
                     | Some _ => (Finished (Returned c), shared p)
                     | None =>
                         (Finished (Returned c), cache_put s c (shared p))
                     end).2)) as ->.
    { by destruct (cache_get s (shared p)). }
    set (st' := (match cache_get s (shared p) with
                 | Some _ => _ | None => _ end).2) in *.
    split_and!; simpl.
    + intros k t Hk. rewrite Halloc.
      destruct (decide (i = k)) as [<-|Hne].
      * rewrite list_lookup_insert_eq in Hk by done. injection Hk as <-.
        right. exists c. split; [by right | done].
      * rewrite list_lookup_insert_ne in Hk by done. by apply (Hall k).
    + assert (∀ m cm, holds {| threads := <[i := Finished (Returned c)]>
                                            (threads p);
                               shared := st' |} m cm → holds p m cm) as Hback.
      { intros m cm Hm. destruct (decide (i = m)) as [<-|Hne].
        - destruct Hm as [Hm | Hm]; simpl in Hm;
            rewrite list_lookup_insert_eq in Hm by done; simplify_eq.
          by left.
        - by apply holds_insert_ne in Hm. }
      intros k j ck cj Hkj Hk Hj.
      apply Hback in Hk. apply Hback in Hj.
      exact (Hdistinct k j ck cj Hkj Hk Hj).
    + unfold missed. simpl. rewrite length_insert, Halloc.
      pose proof (sum_list_insert is_missed _ _ _ (Finished (Returned c)) Hi)
        as Hs.
      simpl in Hs. lia.
  - (* a finished thread does nothing *)
    done.
Qed.

Lemma run_racing base schedule p :
  racing base p → racing base (run s wrapped environ schedule p).
Proof.
  revert p. induction schedule as [|i schedule IH]; intros p Hp; [done|].
  apply IH. by apply schedule_step_racing.
Qed.

(** All [n] threads look the cache up, one after the other, and find it
    empty. *)
Lemma run_lookups k m st :
  cache_get s st = None →
  run s wrapped environ (seq k m)
      {| threads := replicate k Missed ++ replicate m Entering;
         shared := st |}
  = {| threads := replicate (k + m) Missed; shared := st |}.
Proof.
  intros Hc. revert k. induction m as [|m IH]; intros k.
  - simpl. by rewrite app_nil_r, Nat.add_0_r.
  - simpl. unfold schedule_step at 1. simpl.
    rewrite lookup_app_r by (rewrite length_replicate; lia).
    rewrite length_replicate, Nat.sub_diag. simpl. rewrite Hc.
    rewrite insert_app_r_alt by (rewrite length_replicate; lia).
    rewrite length_replicate, Nat.sub_diag. simpl.
    rewrite (cons_middle Missed), app_assoc, <- replicate_S_end.
    replace (k + S m) with (S k + m) by lia. apply IH.
Qed.

Lemma all_missed_racing n st :
  racing (allocated st) {| threads := replicate n Missed; shared := st |}.
Proof.
  split_and!; simpl.
  - intros i t Hi. apply lookup_replicate in Hi as [-> _]. by left.
  - intros i j ci cj _ [Hi | Hi]; simpl in Hi;
      by apply lookup_replicate in Hi as [? _].
  - unfold missed. simpl.
    rewrite fmap_replicate, sum_list_replicate, length_replicate. simpl. lia.
Qed.

Lemma racing_threads n st rest :
  cache_get s st = None →
  racing (allocated st)
         (run s wrapped environ (seq 0 n ++ rest) (start n st)).
Proof.
  intros Hc. unfold run. rewrite fold_left_app.
  pose proof (run_lookups 0 n st Hc) as Hl. unfold run in Hl. simpl in Hl.
  unfold start. rewrite Hl. apply run_racing, all_missed_racing.
Qed.

Lemma run_length schedule p :
  length (threads (run s wrapped environ schedule p)) = length (threads p).
Proof.
  revert p. induction schedule as [|i schedule IH]; intros p; simpl; [done|].
  rewrite IH. unfold schedule_step.
  destruct (threads p !! i) as [t|]; [|done].
  destruct (thread_step _ _ _ _ _) as [[t' st']|]; [|done].
  simpl. by rewrite length_insert.
Qed.

Lemma no_missed_when_finished (l : list thread) :
  (∀ i t, l !! i = Some t → ∃ r, t = Finished r) →
  sum_list (is_missed <$> l) = 0.
Proof.
  induction l as [|t l IH]; intros Hfin; [done|]. csimpl.
  rewrite IH; [|intros i t' Hi; by apply (Hfin (S i))].
  by destruct (Hfin 0 t eq_refl) as [r ->].
Qed.

End race_facts.

(** ** Concurrent first calls *)

Section concurrent_first_calls.

Lemma get_llm_client_constructing environ :
  Py.truthy (environ !! "OPENROUTER_API_KEY") = true →
  constructs get_llm_client__wrapped environ.
Proof.
  intros Hkey st. rewrite get_llm_client__wrapped_eq, Hkey.
  unfold OpenAI_new. eauto.
Qed.

Lemma get_openrouter_client_constructing environ :
  Py.truthy (environ !! "OPENROUTER_API_KEY") = true →
  constructs get_openrouter_client__wrapped environ.
Proof.
  intros Hkey st. rewrite get_openrouter_client__wrapped_eq, Hkey.
  unfold OpenAI_new. eauto.
Qed.

(** C9, as amended.  [lru_cache] holds no lock while the factory runs.
    Of [n] threads that enter a factory at most [n] construct a client,
    and none when the cache is already filled.  A thread that enters once
    a client is cached gets that client, whatever the other threads are
    doing; when all threads enter after the first call has completed, the
    process state does not change at all.  But when, under an
    environment that has the credential, [n] threads have all looked the
    cache up before any result is stored, each of them constructs a
    client of its own, however they are scheduled afterwards: every
    thread that has run the wrapped function holds an object allocated
    since, no two hold the same object, and once all have finished
    exactly [n] clients have been constructed. *)
Theorem threads_construct_one_each
    (environ : gmap string string) (schedule : list nat) :
  (∀ n st,
     allocated (shared (llm_client_threads environ schedule (start n st)))
     ≤ allocated st + n
     ∧ allocated (shared (openrouter_client_threads environ schedule
                            (start n st)))
       ≤ allocated st + n)
  ∧ (∀ p j client r,
       llm_client_cache (shared p) = Some client →
       threads p !! j = Some Entering →
       threads (llm_client_threads environ schedule p) !! j
       = Some (Finished r) →
       r = Returned client)
  ∧ (∀ p j client r,
       openrouter_client_cache (shared p) = Some client →
       threads p !! j = Some Entering →
       threads (openrouter_client_threads environ schedule p) !! j
       = Some (Finished r) →
       r = Returned client)
  ∧ (∀ n st client,
       llm_client_cache st = Some client →
       shared (llm_client_threads environ schedule (start n st)) = st)
  ∧ (∀ n st client,
       openrouter_client_cache st = Some client →
       shared (openrouter_client_threads environ schedule (start n st)) = st)
  ∧ (∀ n st,
       Py.truthy (environ !! "OPENROUTER_API_KEY") = true →
       llm_client_cache st = None →
       let p := llm_client_threads environ (seq 0 n ++ schedule)
                                   (start n st) in
       racing (allocated st) p
       ∧ ((∀ i, i < n → ∃ r, threads p !! i = Some (Finished r)) →
          allocated (shared p) = allocated st + n))
  ∧ (∀ n st,
       Py.truthy (environ !! "OPENROUTER_API_KEY") = true →
       openrouter_client_cache st = None →
       let p := openrouter_client_threads environ (seq 0 n ++ schedule)
                                          (start n st) in
       racing (allocated st) p
       ∧ ((∀ i, i < n → ∃ r, threads p !! i = Some (Finished r)) →
          allocated (shared p) = allocated st + n)).
Proof.
  pose proof get_llm_client_well_behaved as HL.
  pose proof get_openrouter_client_well_behaved as HO.
  assert (∀ s wrapped n st,
            well_behaved s wrapped → constructs wrapped environ →
            cache_get s st = None →
            let p := run s wrapped environ (seq 0 n ++ schedule)
                         (start n st) in
            racing (allocated st) p
            ∧ ((∀ i, i < n → ∃ r, threads p !! i = Some (Finished r)) →
               allocated (shared p) = allocated st + n)) as Hrace.
  { intros s wrapped n st Hb Hcons Hc p.
    pose proof (racing_threads s wrapped environ Hb Hcons n st schedule Hc)
      as Hr.
    fold p in Hr. split; [done|]. intros Hfin.
    destruct Hr as (_ & _ & Hcount). unfold missed in Hcount.
    assert (length (threads p) = n) as Hlen.
    { unfold p. rewrite run_length. simpl. apply length_replicate. }
    rewrite no_missed_when_finished in Hcount; [lia|].
    intros i t Hi. pose proof (lookup_lt_Some _ _ _ Hi) as Hlt.
    rewrite Hlen in Hlt. destruct (Hfin i Hlt) as [r Hr]. exists r.
    congruence. }
  split_and!.
  - intros n st. split.
    + pose proof (threads_bound _ _ environ HL n st schedule) as H.
      unfold llm_client_threads. destruct (cache_get _ st); lia.
    + pose proof (threads_bound _ _ environ HO n st schedule) as H.
      unfold openrouter_client_threads. destruct (cache_get _ st); lia.
  - intros p j client r Hc Hj Hr.
    destruct (run_entering _ _ environ HL schedule p j client Hc
                (or_introl Hj)) as [_ [H|H]];
      unfold llm_client_threads in Hr; congruence.
  - intros p j client r Hc Hj Hr.
    destruct (run_entering _ _ environ HO schedule p j client Hc
                (or_introl Hj)) as [_ [H|H]];
      unfold openrouter_client_threads in Hr; congruence.
  - intros n st client Hc. unfold llm_client_threads.
    rewrite (run_all_entering _ _ environ schedule (start n st) client);
      [done | done |].
    apply Forall_replicate. by left.
  - intros n st client Hc. unfold openrouter_client_threads.
    rewrite (run_all_entering _ _ environ schedule (start n st) client);
      [done | done |].
    apply Forall_replicate. by left.
  - intros n st Hkey Hc.
    apply (Hrace get_llm_client_cache); [done | | done].
    by apply get_llm_client_constructing.
  - intros n st Hkey Hc.
    apply (Hrace get_openrouter_client_cache); [done | | done].
    by apply get_openrouter_client_constructing.
Qed.

Lemma threads_construct_one_each_witness :
  threads (llm_client_threads ∅ [1; 0; 1] (start 2 after_first_call)) !! 1
  = Some (Finished (Returned first_client))
  ∧ shared (llm_client_threads ∅ [1; 0; 1] (start 2 after_first_call))
    = after_first_call
  ∧ allocated (shared (llm_client_threads environ_key_only lockstep
                         (start 2 initial))) ≤ 2
  ∧ allocated (shared (llm_client_threads environ_key_only lockstep
                         (start 2 initial))) = 0 + 2.
Proof.
  destruct (threads_construct_one_each ∅ [1; 0; 1]) as (_ & Hget & _ & Hsame & _).
  destruct (threads_construct_one_each environ_key_only lockstep)
    as (Hbound & _).
  destruct (threads_construct_one_each environ_key_only [0; 1; 0; 1])
    as (_ & _ & _ & _ & _ & Hrace & _).
  split_and!.
  - assert (∃ r, threads (llm_client_threads ∅ [1; 0; 1]
                            (start 2 after_first_call)) !! 1
                 = Some (Finished r)) as [r Hr].
    { eexists. vm_compute. reflexivity. }
    rewrite Hr.
    rewrite (Hget (start 2 after_first_call) 1 first_client r);
      [reflexivity | reflexivity | reflexivity | exact Hr].
  - apply (Hsame 2 after_first_call first_client). reflexivity.
  - apply (Hbound 2 initial).
  - destruct (Hrace 2 initial eq_refl eq_refl) as [_ Hexact].
    apply Hexact. intros [|[|i]] Hi; [| |lia]; eexists; vm_compute;
      reflexivity.
Defined.

(** C9 as stated fails: two threads that both look the cache up before
    either has stored its result construct two clients, and get back two
    different objects. *)
Lemma concurrent_first_calls_construct_twice :
  ¬ (∀ environ n schedule,
       allocated (shared (llm_client_threads environ schedule
                            (start n initial))) ≤ 1)
  ∧ ¬ (∀ environ n schedule,
         allocated (shared (openrouter_client_threads environ schedule
                              (start n initial))) ≤ 1)
  ∧ returned_objects
      (llm_client_threads environ_key_only lockstep (start 2 initial))
    = [0; 1]
  ∧ returned_objects
      (openrouter_client_threads environ_key_only lockstep (start 2 initial))
    = [0; 1].
Proof.
  split_and!.
  - intros Hclaim. specialize (Hclaim environ_key_only 2 lockstep).
    vm_compute in Hclaim. lia.
  - intros Hclaim. specialize (Hclaim environ_key_only 2 lockstep).
    vm_compute in Hclaim. lia.
  - by vm_compute.
  - by vm_compute.
Qed.

End concurrent_first_calls.

(** * Further properties of the code *)

(** ** The message adapter on arbitrary dictionaries *)

Section prepare_responses_messages_more.

Lemma message_role_role_content role content :
  message_role (role_content role content) = role.
Proof. reflexivity. Qed.

Lemma message_content_role_content role content :
  message_content (role_content role content) = content.
Proof.
  unfold message_content, role_content. by rewrite lookup_insert_eq.
Qed.

Lemma role_content_is_mapping role content :
  role_content_mapping (role_content role content).
Proof.
  unfold role_content_mapping, role_content.
  rewrite !dom_insert_L, dom_empty_L. set_solver.
Qed.

Lemma rebuilt_conversation_entry message :
  ¬ is_system message → conversation_entry (rebuilt message).
Proof.
  intros Hns. split; [apply role_content_is_mapping|].
  unfold is_system, rebuilt. by rewrite message_role_role_content.
Qed.

Lemma placeholder_conversation_entry : conversation_entry placeholder.
Proof. split; [apply role_content_is_mapping | done]. Qed.

Lemma conversation_entries messages :
  Forall conversation_entry (prepare_responses_messages messages).2.
Proof.
  rewrite prepare_responses_messages_eq. simpl.
  assert (Forall conversation_entry (rebuilt <$> non_system messages)) as Hall.
  { apply Forall_fmap, Forall_forall. intros m Hm.
    apply rebuilt_conversation_entry.
    unfold non_system in Hm. by apply list_elem_of_filter in Hm as [? _]. }
  destruct (rebuilt <$> non_system messages); [|done].
  repeat constructor; apply placeholder_conversation_entry.
Qed.

Lemma non_system_entries (conversation : list (gmap string string)) :
  Forall conversation_entry conversation →
  system_contents conversation = []
  ∧ non_system conversation = conversation
  ∧ rebuilt <$> conversation = conversation.
Proof.
  unfold system_contents, non_system.
  induction 1 as [|m ms [Hm Hns] _ (IH1 & IH2 & IH3)]; [done|].
  rewrite !filter_cons, decide_False, decide_True by done.
  rewrite fmap_cons, IH2, IH3, rebuilt_role_content_mapping by done.
  done.
Qed.

(** X1. The conversation the adapter returns is a fixed point: preparing
    it again yields no instructions and the same conversation. *)
Theorem prepare_conversation_is_fixed_point
    (messages : list (gmap string string)) :
  prepare_responses_messages (prepare_responses_messages messages).2
  = (None, (prepare_responses_messages messages).2).
Proof.
  pose proof (conversation_entries messages) as Hall.
  destruct (non_system_entries _ Hall) as (H1 & H2 & H3).
  rewrite (prepare_responses_messages_eq
             (prepare_responses_messages messages).2).
  rewrite H1, H2, H3.
  destruct (prepare_responses_messages messages).2 as [|m ms] eqn:Hconv;
    [|done].
  exfalso. revert Hconv. rewrite prepare_responses_messages_eq. simpl.
  by destruct (rebuilt <$> non_system messages).
Qed.

(** X2. Whatever dictionaries come in, every entry of the returned
    conversation has exactly the keys "role" and "content" and a role
    other than "system", and there is one entry per non-system message,
    or the single placeholder when there is none. *)
Theorem prepare_conversation_entries
    (messages : list (gmap string string)) :
  Forall conversation_entry (prepare_responses_messages messages).2
  ∧ length (prepare_responses_messages messages).2
    = length (non_system messages) `max` 1.
Proof.
  split; [apply conversation_entries|].
  rewrite prepare_responses_messages_eq. simpl.
  destruct (non_system messages) as [|m ms]; simpl; [done|].
  rewrite length_fmap. lia.
Qed.



End prepare_responses_messages_more.

(** ** Joining strings *)

Section joining.

Lemma append_assoc (a b c : string) : (a +:+ b) +:+ c = a +:+ b +:+ c.
Proof.
  induction a as [|x a IH]; [done|].
  change (String x ((a +:+ b) +:+ c) = String x (a +:+ b +:+ c)).
  by rewrite IH.
Qed.

Lemma append_empty_r (a : string) : a +:+ "" = a.
Proof.
  induction a as [|x a IH]; [done|].
  change (String x (a +:+ "") = String x a). by rewrite IH.
Qed.

Lemma join_app sep x l1 y l2 :
  Py.join sep ((x :: l1) ++ y :: l2)
  = Py.join sep (x :: l1) +:+ sep +:+ Py.join sep (y :: l2).
Proof.
  unfold Py.join. revert x.
  induction l1 as [|x' l1 IH]; intros x; [done|].
  change (String.concat sep ((x :: x' :: l1) ++ y :: l2))
    with (x +:+ sep +:+ String.concat sep ((x' :: l1) ++ y :: l2)).
  rewrite IH.
  change (String.concat sep (x :: x' :: l1))
    with (x +:+ sep +:+ String.concat sep (x' :: l1)).
  by rewrite !append_assoc.
Qed.

Lemma join_empty_cons x l : Py.join "" (x :: l) = x +:+ Py.join "" l.
Proof.
  unfold Py.join. destruct l as [|y l]; simpl; [by rewrite append_empty_r|].
  done.
Qed.

Lemma join_empty_app l1 l2 :
  Py.join "" (l1 ++ l2) = Py.join "" l1 +:+ Py.join "" l2.
Proof.
  induction l1 as [|x l1 IH]; [done|].
  rewrite <- app_comm_cons, !join_empty_cons, IH.
  by rewrite append_assoc.
Qed.

End joining.

(** ** The message adapter on a concatenation *)

Section prepare_responses_messages_app.

(** X4. Preparing a concatenation of two message lists: the
    instructions are those of the two parts joined by a blank line (or
    those of the one part that has any), and the conversation is the
    conversation of the first part followed by that of the second, a part
    without non-system messages contributing nothing. *)
Theorem prepare_app (first second : list (gmap string string)) :
  (prepare_responses_messages (first ++ second)).1
  = match (prepare_responses_messages first).1,
          (prepare_responses_messages second).1 with
    | Some a, Some b => Some (a +:+ Py.blank_line +:+ b)
    | Some a, None => Some a
    | None, b => b
    end
  ∧ (prepare_responses_messages (first ++ second)).2
    = match non_system first, non_system second with
      | [], _ => (prepare_responses_messages second).2
      | _ :: _, [] => (prepare_responses_messages first).2
      | _ :: _, _ :: _ =>
          (prepare_responses_messages first).2
          ++ (prepare_responses_messages second).2
      end.
Proof.
  rewrite !prepare_responses_messages_eq. simpl.
  unfold system_contents, non_system. rewrite !filter_app, !fmap_app.
  split.
  - destruct (message_content <$> filter is_system first) as [|a l1];
      destruct (message_content <$> filter is_system second) as [|b l2];
      simpl; try done.
    + by rewrite app_nil_r.
    + f_equal. apply (join_app Py.blank_line a l1 b l2).
  - destruct (filter (λ m, ¬ is_system m) first) as [|a l1];
      destruct (filter (λ m, ¬ is_system m) second) as [|b l2];
      simpl; try done.
    by rewrite app_nil_r.
Qed.

End prepare_responses_messages_app.

(** ** Text extraction, item by item *)

Section extract_response_text_more.

Lemma output_texts_app r r1 r2 :
  default [] (output r) = default [] (output r1) ++ default [] (output r2) →
  output_texts r = output_texts r1 ++ output_texts r2.
Proof. unfold output_texts. intros ->. apply bind_app. Qed.

(** X5. For responses without a non-empty [output_text], extraction
    distributes over the output items: the text of an output that is the
    concatenation of two outputs is the text of the first followed by the
    text of the second. *)
Theorem extract_response_text_app (response first second : Response) :
  Py.truthy (output_text response) = false →
  Py.truthy (output_text first) = false →
  Py.truthy (output_text second) = false →
  default [] (output response)
  = default [] (output first) ++ default [] (output second) →
  extract_response_text response
  = extract_response_text first +:+ extract_response_text second.
Proof.
  intros H H1 H2 Hout.
  rewrite !extract_response_text_scan by done.
  rewrite (output_texts_app _ _ _ Hout). apply join_empty_app.
Qed.

Lemma extract_response_text_app_witness :
  extract_response_text (response_of_output mixed_output)
  = extract_response_text (response_of_output (take 2 mixed_output))
    +:+ extract_response_text
          {| output_text := Some "";
             output := Some (drop 2 mixed_output); model_dump := ∅ |}.
Proof.
  apply extract_response_text_app; reflexivity.
Defined.

Lemma item_texts_only_output_text items :
  only_output_text items ≫= item_texts = items ≫= item_texts.
Proof.
  unfold only_output_text.
  induction items as [|item items IH]; [done|].
  rewrite filter_cons. rewrite (bind_cons _ item items).
  destruct (decide (item_type item = Some "message")) as [Hm|Hm].
  - rewrite fmap_cons, bind_cons, IH. f_equal.
    unfold item_texts. simpl. rewrite !decide_True by done.
    generalize (default [] (item_content item)). intros contents.
    induction contents as [|c cs IHc]; [done|].
    rewrite filter_cons, (bind_cons _ c cs), <- IHc.
    destruct (decide (content_type c = Some "output_text")); [|done].
    by rewrite bind_cons, decide_True by done.
  - rewrite IH. unfold item_texts at 2. by rewrite decide_False by done.
Qed.

(** X6. Output items that are not tagged "message" and content items
    that are not tagged "output_text" never reach the result: removing
    them all from the response leaves the extracted text unchanged. *)
Theorem extract_response_text_skips_other_items (response : Response) :
  Py.truthy (output_text response) = false →
  extract_response_text response
  = extract_response_text
      (response_of_output (only_output_text (default [] (output response)))).
Proof.
  intros H. rewrite !extract_response_text_scan by done.
  unfold output_texts. simpl. by rewrite item_texts_only_output_text.
Qed.

Lemma extract_response_text_skips_other_items_witness :
  extract_response_text (response_of_output mixed_output) = "abc"
  ∧ extract_response_text
      (response_of_output (only_output_text mixed_output)) = "abc".
Proof.
  split; [reflexivity|].
  pose proof (extract_response_text_skips_other_items
                (response_of_output mixed_output) eq_refl) as H.
  simpl in H. rewrite <- H. reflexivity.
Defined.

End extract_response_text_more.

(** ** Usage statistics, again *)

Section response_to_dict_more.

Lemma setdefault_present {V} (k : string) (v : V) (d : gmap string V) :
  is_Some (d !! k) → Py.setdefault k v d = d.
Proof. intros [w Hw]. unfold Py.setdefault. by rewrite Hw. Qed.

Lemma setdefault_is_Some {V} (k k' : string) (v : V) (d : gmap string V) :
  k = k' ∨ is_Some (d !! k') → is_Some (Py.setdefault k v d !! k').
Proof.
  intros H. rewrite setdefault_lookup. case_decide; [eauto|].
  by destruct H.
Qed.

Lemma response_to_dict_usage response usage :
  model_dump response !! "usage" = Some (JDict usage) →
  response_to_dict response
  = <["usage" := JDict (normalise_usage usage)]> (model_dump response).
Proof. intros Hu. unfold response_to_dict. by rewrite Hu. Qed.

Lemma response_to_dict_no_usage response :
  (∀ usage, model_dump response !! "usage" ≠ Some (JDict usage)) →
  response_to_dict response = model_dump response.
Proof.
  intros Hno. unfold response_to_dict.
  destruct (model_dump response !! "usage") as [usage|] eqn:Hu; [|done].
  destruct usage; try done. by destruct (Hno fields).
Qed.

Lemma normalise_usage_idempotent usage :
  normalise_usage (normalise_usage usage) = normalise_usage usage.
Proof.
  assert (is_Some (normalise_usage usage !! "prompt_tokens")) as Hp.
  { apply setdefault_is_Some. right. apply setdefault_is_Some. by left. }
  assert (is_Some (normalise_usage usage !! "completion_tokens")) as Hc.
  { apply setdefault_is_Some. by left. }
  unfold normalise_usage at 1.
  rewrite (setdefault_present "prompt_tokens") by done.
  by rewrite setdefault_present.
Qed.

(** X7. Normalising is idempotent: serialising a response whose dump is
    already the result of [response_to_dict] changes nothing. *)
Theorem response_to_dict_idempotent (response : Response) :
  response_to_dict (response_of_dump (response_to_dict response))
  = response_to_dict response.
Proof.
  destruct (model_dump response !! "usage") as [usage|] eqn:Hu.
  - destruct usage as [| | | | | |usage].
    7: { rewrite (response_to_dict_usage response usage Hu).
         rewrite (response_to_dict_usage _ (normalise_usage usage));
           [|by apply lookup_insert_eq].
         simpl. by rewrite insert_insert_eq, normalise_usage_idempotent. }
    all: rewrite (response_to_dict_no_usage response)
      by (intros u; rewrite Hu; discriminate).
    all: apply (response_to_dict_no_usage
                  (response_of_dump (model_dump response))); simpl;
      intros u; rewrite Hu; discriminate.
  - rewrite (response_to_dict_no_usage response)
      by (intros u; rewrite Hu; discriminate).
    apply (response_to_dict_no_usage
             (response_of_dump (model_dump response))); simpl.
    intros u; rewrite Hu; discriminate.
Qed.

(** X8. [response_to_dict] never adds or removes a top-level field, and
    when "usage" is missing or is not a mapping (null, for one) it
    returns the serialised response as it is. *)
Theorem response_to_dict_without_usage (response : Response) :
  dom (response_to_dict response) = dom (model_dump response)
  ∧ ((∀ usage, model_dump response !! "usage" ≠ Some (JDict usage)) →
     response_to_dict response = model_dump response).
Proof.
  split; [|apply response_to_dict_no_usage].
  unfold response_to_dict.
  destruct (model_dump response !! "usage") as [usage|] eqn:Hu; [|done].
  destruct usage; try done.
  apply dom_insert_lookup_L. eauto.
Qed.

Lemma response_to_dict_without_usage_witness :
  response_to_dict (response_with_usage JNull)
  = model_dump (response_with_usage JNull)
  ∧ response_to_dict (response_of_dump ∅) = ∅.
Proof.
  split.
  - apply (response_to_dict_without_usage (response_with_usage JNull)).
    intros usage. vm_compute. discriminate.
  - apply (response_to_dict_without_usage (response_of_dump ∅)).
    intros usage. vm_compute. discriminate.
Defined.

End response_to_dict_more.

(** ** What a factory constructs *)

Section construction.

Lemma truthy_value v :
  Py.truthy v = true → ∃ a k, v = Some (String a k).
Proof. destruct v as [[|a k]|]; try done. eauto. Qed.

(** X9. A client that [get_llm_client] or [get_openrouter_client]
    constructs carries the non-empty OPENROUTER_API_KEY of the
    environment and, as base URL, OPENROUTER_BASE_URL whenever that
    variable is set (the empty string included) and
    https://openrouter.ai/api/v1 otherwise; it is a new object, and it is
    stored in the cache of its factory only. *)
Theorem new_client_configuration
    (environ : gmap string string) (st st' : state) (client : OpenAI) :
  (llm_client_cache st = None →
   get_llm_client environ st = (Returned client, st') →
   environ !! "OPENROUTER_API_KEY" = Some (api_key client)
   ∧ api_key client ≠ ""
   ∧ base_url client
     = default "https://openrouter.ai/api/v1"
               (environ !! "OPENROUTER_BASE_URL")
   ∧ object_id client = allocated st
   ∧ allocated st' = S (allocated st)
   ∧ llm_client_cache st' = Some client
   ∧ openrouter_client_cache st' = openrouter_client_cache st)
  ∧ (openrouter_client_cache st = None →
     get_openrouter_client environ st = (Returned client, st') →
     environ !! "OPENROUTER_API_KEY" = Some (api_key client)
     ∧ api_key client ≠ ""
     ∧ base_url client
       = default "https://openrouter.ai/api/v1"
                 (environ !! "OPENROUTER_BASE_URL")
     ∧ object_id client = allocated st
     ∧ allocated st' = S (allocated st)
     ∧ openrouter_client_cache st' = Some client
     ∧ llm_client_cache st' = llm_client_cache st).
Proof.
  split; intros Hcache.
  - unfold get_llm_client, lru_cache. simpl. rewrite Hcache.
    rewrite get_llm_client__wrapped_eq.
    destruct (Py.truthy (environ !! "OPENROUTER_API_KEY")) eqn:Hkey; [|done].
    apply truthy_value in Hkey as (a & k & Hkey). rewrite Hkey. simpl.
    by intros [= <- <-].
  - unfold get_openrouter_client, lru_cache. simpl. rewrite Hcache.
    rewrite get_openrouter_client__wrapped_eq.
    destruct (Py.truthy (environ !! "OPENROUTER_API_KEY")) eqn:Hkey; [|done].
    apply truthy_value in Hkey as (a & k & Hkey). rewrite Hkey. simpl.
    by intros [= <- <-].
Qed.

Lemma new_client_configuration_witness :
  ∃ client st',
    get_llm_client environ_empty_base_url initial = (Returned client, st')
    ∧ api_key client = "sk-or-v1" ∧ base_url client = ""
    ∧ object_id client = 0 ∧ allocated st' = 1.
Proof.
  destruct (get_llm_client environ_empty_base_url initial)
    as [[client|e] st'] eqn:Hcall; [|by vm_compute in Hcall].
  exists client, st'. split; [reflexivity|].
  destruct (new_client_configuration environ_empty_base_url initial
              st' client) as [H _].
  destruct (H eq_refl Hcall) as (Hk & _ & Hb & Hid & Ha & _).
  vm_compute in Hk. injection Hk as Hk.
  split_and!; [by symmetry | exact Hb | exact Hid | exact Ha].
Defined.

(** X10. A failure is not cached: when a call raises for want of the
    credential, the next call under an environment that has it
    constructs the client, which is then the cached one. *)
Theorem failure_is_not_cached
    (without_key with_key : gmap string string) (st : state) :
  Py.truthy (without_key !! "OPENROUTER_API_KEY") = false →
  Py.truthy (with_key !! "OPENROUTER_API_KEY") = true →
  (llm_client_cache st = None →
   ∃ client st',
     calls get_llm_client [without_key; with_key] st
     = ([Raised (RuntimeError api_key_not_set); Returned client], st')
     ∧ object_id client = allocated st
     ∧ llm_client_cache st' = Some client)
  ∧ (openrouter_client_cache st = None →
     ∃ client st',
       calls get_openrouter_client [without_key; with_key] st
       = ([Raised (EnvironmentError api_key_must_be_set); Returned client],
          st')
       ∧ object_id client = allocated st
       ∧ openrouter_client_cache st' = Some client).
Proof.
  intros Hno Hyes. split; intros Hcache; simpl.
  - rewrite (get_llm_client_raises _ _ Hno Hcache).
    unfold get_llm_client, lru_cache. simpl. rewrite Hcache.
    rewrite get_llm_client__wrapped_eq, Hyes. simpl. eauto.
  - rewrite (get_openrouter_client_raises _ _ Hno Hcache).
    unfold get_openrouter_client, lru_cache. simpl. rewrite Hcache.
    rewrite get_openrouter_client__wrapped_eq, Hyes. simpl. eauto.
Qed.

Lemma failure_is_not_cached_witness :
  calls get_llm_client [environ_empty_key; environ_key_only] initial
  = ([Raised (RuntimeError api_key_not_set); Returned first_client],
     after_first_call).
Proof.
  destruct (failure_is_not_cached environ_empty_key environ_key_only initial)
    as [H _]; [reflexivity | reflexivity |].
  destruct (H eq_refl) as (client & st' & Hcalls & _).
  rewrite Hcalls. vm_compute in Hcalls. by injection Hcalls as <- <-.
Defined.

Lemma perform_unfilled c st :
  allocated (perform c st).2 + unfilled (perform c st).2
  ≤ allocated st + unfilled st.
Proof.
  unfold unfilled. destruct c as [environ|environ]; simpl.
  - unfold get_llm_client, lru_cache. simpl.
    destruct (llm_client_cache st) eqn:Hc; simpl; [by rewrite Hc|].
    rewrite get_llm_client__wrapped_eq.
    destruct (Py.truthy _); simpl; [lia | rewrite Hc; lia].
  - unfold get_openrouter_client, lru_cache. simpl.
    destruct (openrouter_client_cache st) eqn:Hc; simpl; [by rewrite Hc|].
    rewrite get_openrouter_client__wrapped_eq.
    destruct (Py.truthy _); simpl; [lia | rewrite Hc; lia].
Qed.

(** X11. The two factories keep two separate clients: whatever calls of
    the two are made, the process constructs at most two clients in all,
    and the first client of [get_openrouter_client] is another object
    than the one [get_llm_client] has cached, which stays cached. *)
Theorem factories_keep_separate_clients
    (cs : list factory_call) (st : state) :
  allocated (perform_all cs st) ≤ allocated st + 2
  ∧ (∀ environ1 environ2 client1 st1 client2 st2,
       llm_client_cache st = None →
       openrouter_client_cache st = None →
       get_llm_client environ1 st = (Returned client1, st1) →
       get_openrouter_client environ2 st1 = (Returned client2, st2) →
       object_id client2 = S (object_id client1)
       ∧ llm_client_cache st2 = Some client1
       ∧ openrouter_client_cache st2 = Some client2).
Proof.
  split.
  - assert (allocated (perform_all cs st) + unfilled (perform_all cs st)
            ≤ allocated st + unfilled st) as H.
    { revert st. induction cs as [|c cs IH]; intros st; [done|].
      etrans; [apply IH | apply perform_unfilled]. }
    assert (unfilled st ≤ 2); [|lia].
    unfold unfilled.
    destruct (llm_client_cache st), (openrouter_client_cache st); simpl; lia.
  - intros environ1 environ2 client1 st1 client2 st2 Hl Ho H1 H2.
    destruct (new_client_configuration environ1 st st1 client1) as [HL _].
    destruct (HL Hl H1) as (_ & _ & _ & Hid1 & Ha1 & Hc1 & Ho1).
    destruct (new_client_configuration environ2 st1 st2 client2) as [_ HO].
    rewrite Ho in Ho1.
    destruct (HO Ho1 H2) as (_ & _ & _ & Hid2 & _ & Hc2 & Hl2).
    split_and!; [congruence | congruence | done].
Qed.

Lemma factories_keep_separate_clients_witness :
  ∃ client2 st2,
    get_openrouter_client environ_key_only after_first_call
    = (Returned client2, st2)
    ∧ object_id client2 = 1
    ∧ llm_client_cache st2 = Some first_client.
Proof.
  destruct (get_openrouter_client environ_key_only after_first_call)
    as [[client2|e] st2] eqn:Hcall; [|by vm_compute in Hcall].
  exists client2, st2. split; [reflexivity|].
  destruct (factories_keep_separate_clients [] initial) as [_ H].
  destruct (H environ_key_only environ_key_only first_client
              after_first_call client2 st2) as (Hid & Hc & _);
    [reflexivity | reflexivity | reflexivity | exact Hcall |].
  split; [exact Hid | exact Hc].
Defined.

End construction.

(** ** What a factory reads, and which headers it sets *)

Section configuration.

(** X12. Each factory reads its own variables only: under two
    environments that agree on OPENROUTER_API_KEY, OPENROUTER_BASE_URL
    and its header variables (OPENROUTER_HTTP_REFERER, OPENROUTER_TITLE,
    OPENROUTER_X_TITLE for [get_llm_client]; OPENROUTER_REFERER,
    OPENROUTER_APP_NAME for [get_openrouter_client]) a factory does the
    same, whatever else is set. *)
Theorem factories_read_their_variables
    (environ1 environ2 : gmap string string) (st : state) :
  (agree_on llm_client_variables environ1 environ2 →
   get_llm_client environ1 st = get_llm_client environ2 st)
  ∧ (agree_on openrouter_client_variables environ1 environ2 →
     get_openrouter_client environ1 st = get_openrouter_client environ2 st).
Proof.
  unfold agree_on, llm_client_variables, openrouter_client_variables.
  split; intros H; repeat (apply Forall_cons in H as [? H]).
  - unfold get_llm_client, lru_cache, get_llm_client__wrapped,
      _build_default_headers.
    by repeat match goal with Heq : environ1 !! _ = _ |- _ =>
                rewrite Heq; clear Heq end.
  - unfold get_openrouter_client, lru_cache, get_openrouter_client__wrapped,
      _optional_header.
    by repeat match goal with Heq : environ1 !! _ = _ |- _ =>
                rewrite Heq; clear Heq end.
Qed.

Lemma factories_read_their_variables_witness :
  get_llm_client environ_foreign_variables initial
  = (Returned first_client, after_first_call).
Proof.
  destruct (factories_read_their_variables
              environ_foreign_variables environ_key_only initial) as [H _].
  rewrite H; [reflexivity|].
  repeat constructor.
Defined.

Lemma nonempty_value_Some v value :
  nonempty_value v = Some value → v = Some value ∧ value ≠ "".
Proof. destruct v as [[|a k]|]; try done. by intros [= <-]. Qed.

(** X13. The only headers a factory ever hands to a client it
    constructs are HTTP-Referer and X-Title, and a header it attaches
    never has an empty value. *)
Theorem headers_are_named_and_nonempty
    (environ : gmap string string) (st st' : state) (client : OpenAI)
    (name value : string) :
  header (default_headers client) name = Some value →
  (llm_client_cache st = None →
   get_llm_client environ st = (Returned client, st') →
   (name = "HTTP-Referer" ∨ name = "X-Title") ∧ value ≠ "")
  ∧ (openrouter_client_cache st = None →
     get_openrouter_client environ st = (Returned client, st') →
     (name = "HTTP-Referer" ∨ name = "X-Title") ∧ value ≠ "").
Proof.
  intros Hheader. split; intros Hcache Hcall.
  - rewrite (get_llm_client_constructs _ _ _ _ Hcache Hcall) in Hheader.
    rewrite build_default_headers_header in Hheader.
    repeat case_decide; try done;
      apply nonempty_value_Some in Hheader as [_ ?]; auto.
  - rewrite (get_openrouter_client_constructs _ _ _ _ Hcache Hcall)
      in Hheader.
    simpl in Hheader. rewrite !optional_header_lookup in Hheader.
    repeat case_decide; subst; try discriminate;
      rewrite ?lookup_empty in Hheader; try done.
    + destruct (nonempty_value (environ !! "OPENROUTER_APP_NAME")) eqn:Hv;
        [|by rewrite ?lookup_empty in Hheader].
      injection Hheader as ->.
      apply nonempty_value_Some in Hv as [_ ?]. auto.
    + destruct (nonempty_value (environ !! "OPENROUTER_REFERER")) eqn:Hv;
        [|by rewrite ?lookup_empty in Hheader].
      injection Hheader as ->.
      apply nonempty_value_Some in Hv as [_ ?]. auto.
Qed.

Lemma headers_are_named_and_nonempty_witness :
  header (default_headers planner_client) "X-Title" = Some "planner"
  ∧ "planner" ≠ "".
Proof.
  split; [reflexivity|].
  destruct (headers_are_named_and_nonempty environ_openrouter_headers
              initial
              (get_openrouter_client environ_openrouter_headers initial).2
              planner_client "X-Title" "planner" eq_refl) as [_ H].
  apply H; reflexivity.
Defined.

End configuration.

(** ** The cache under races *)

Section races.

Lemma run_cached s wrapped environ schedule p client :
  well_behaved s wrapped →
  cache_get s (shared p) = Some client →
  cache_get s (shared (run s wrapped environ schedule p)) = Some client.
Proof.
  intros Hb. revert p.
  induction schedule as [|i schedule IH]; intros p Hc; [done|].
  apply IH. by apply schedule_step_cached.
Qed.

(** X14. Once the cache of a factory holds a client, no interleaving of
    threads replaces or removes it, threads that had already missed the
    cache included: the first stored client stays the cached one. *)
Theorem cached_client_survives_races
    (environ : gmap string string) (schedule : list nat) (p : pool)
    (client : OpenAI) :
  (llm_client_cache (shared p) = Some client →
   llm_client_cache (shared (llm_client_threads environ schedule p))
   = Some client)
  ∧ (openrouter_client_cache (shared p) = Some client →
     openrouter_client_cache
       (shared (openrouter_client_threads environ schedule p))
     = Some client).
Proof.
  split; intros Hc.
  - apply (run_cached get_llm_client_cache); [|done].
    apply get_llm_client_well_behaved.
  - apply (run_cached get_openrouter_client_cache); [|done].
    apply get_openrouter_client_well_behaved.
Qed.

Lemma cached_client_survives_races_witness :
  llm_client_cache
    (shared (llm_client_threads environ_key_only [1; 1; 0; 0; 1; 1]
               (llm_client_threads environ_key_only [0; 1; 0; 0]
                  (start 2 initial))))
  = Some first_client
  ∧ allocated
      (shared (llm_client_threads environ_key_only [1; 1; 0; 0; 1; 1]
                 (llm_client_threads environ_key_only [0; 1; 0; 0]
                    (start 2 initial)))) = 2.
Proof.
  split; [|reflexivity].
  apply (cached_client_survives_races environ_key_only [1; 1; 0; 0; 1; 1]
           (llm_client_threads environ_key_only [0; 1; 0; 0]
              (start 2 initial))).
  reflexivity.
Defined.

End races.
